(** * Walkspan API: sidewalk retrieval and nearest-sidewalk resolution

    Shallow embedding of [src/lib/geocoder.js]
    ([getBoundingBoxFromCoordinatesAndRange]) and of [src/model/db.js]
    ([getClosestSidewalk], [getSidewalksInRadius]), followed by their
    callers: [src/lib/overpass.js] ([queryOverpassForTags]),
    [src/lib/essentialsHelper.js] ([getLifestyleEssentials]), the template
    contexts of [src/lib/handlebarsHelper.js], and the last step of the
    handlers of the score and essentials routes.  What the callers import
    from outside the repository (the Overpass client, the compiled
    templates, the rendering of a number as text) is a parameter.

    Number model.  JavaScript numbers are read as real numbers: [+], [-], [*],
    [/], [Math.cos], [Math.sqrt] and [Math.PI] are the exact operations of
    [R].  Rounding, overflow and the non-finite values of binary64 are not
    part of this model; a statement over it is a statement about exact
    arithmetic.  Where rounding decides whether a property holds,
    [getBoundingBoxFromCoordinatesAndRange] is modelled twice more: in
    [Binary64] on the primitive binary64 numbers, where its results are
    computed, and in [Rounded] on reals with every operation followed by a
    rounding function, where properties are proved from what is assumed of
    the rounding.  In [getBoundingBoxFromCoordinatesAndRange] the quotient by
    [degLongKm] is the total division of [R]; the theorems that depend on
    its value assume a latitude strictly between -90 and 90, where the
    divisor is positive.  In the imported distance function, whose divisor
    is zero for a zero-length segment, division is written with [js_div],
    which has no result at a zero divisor.

    Store model.  A table is the list of its rows in storage order.  A
    [SELECT ... WHERE] is a [filter]; [ORDER BY key ASC LIMIT 8] keeps the
    first eight rows of the table sorted by [key].  Column values are
    numbers; SQL NULL is not modelled. *)

From Stdlib Require Import Reals Lra Lia ZArith Bool String List.
From Stdlib Require Import Sorted Permutation.
From Stdlib Require PrimFloat.
Import ListNotations.
Open Scope R_scope.

(** ** Comparisons of numbers, as booleans *)

Module JsNumber.

(** [Number(x)] applied to a value that already is a number. *)
Definition Number (x : R) : R := x.

(** [x <= y] *)
Definition leb (x y : R) : bool := if Rle_dec x y then true else false.

(** [x < y] *)
Definition ltb (x y : R) : bool := if Rlt_dec x y then true else false.

(** [x / y]; a zero divisor gives no finite number. *)
Definition js_div (x y : R) : option R :=
  if Req_dec_T y 0 then None else Some (x / y).

(** [Math.sqrt(x)]; a negative argument gives no number. *)
Definition js_sqrt (x : R) : option R :=
  if Rlt_dec x 0 then None else Some (sqrt x).

End JsNumber.

(** ** Sorting by a comparison, shared by the two sort models below *)

Module Sorting.
Section Sort.
Context {A : Type}.
Variable before : A -> A -> bool.

Fixpoint insert (x : A) (l : list A) : list A :=
  match l with
  | [] => [x]
  | h :: t => if before x h then x :: h :: t else h :: insert x t
  end.

Fixpoint sort (l : list A) : list A :=
  match l with
  | [] => []
  | h :: t => insert h (sort t)
  end.
End Sort.
End Sorting.

(** ** src/lib/geocoder.js *)

Module Geocoder.
Import JsNumber.

Record BoundingBox : Type := mkBoundingBox {
  topLat : R;
  bottomLat : R;
  leftLng : R;
  rightLng : R
}.

Definition getBoundingBoxFromCoordinatesAndRange
    (latitude longitude range : R) : BoundingBox :=
  let pDistanceInMeters := range * 1609.344 in
  let latRadian := Number latitude * PI / 180 in
  let degLatKm := 110.574235 in
  let degLongKm := 110.572833 * cos latRadian in
  let deltaLat := pDistanceInMeters / 1000.0 / degLatKm in
  let deltaLong := pDistanceInMeters / 1000.0 / degLongKm in
  {| topLat := Number latitude + deltaLat;
     bottomLat := Number latitude - deltaLat;
     leftLng := Number longitude - deltaLong;
     rightLng := Number longitude + deltaLong |}.

(** The two half-extents as the specification writes them (section 4.1,
    steps 1 to 4), to be compared with the function above. *)
Definition spec_deltaLat (r : R) : R :=
  (r * 1609.344 / 1000) / 110.574235.

Definition spec_deltaLng (lat r : R) : R :=
  (r * 1609.344 / 1000) / (110.572833 * cos (lat * PI / 180)).

End Geocoder.

(** ** npm package distance-to-line-segment, imported by src/model/db.js *)

Module DistanceToLineSegment.
Import JsNumber.

Definition bind {A B : Type} (m : option A) (k : A -> option B) : option B :=
  match m with
  | Some a => k a
  | None => None
  end.

Notation "x <- m ;; k" := (bind m (fun x => k))
  (at level 61, m at next level, right associativity).

(** Modelled from the spec: the package's source is not under src/.  The
    specification (section 4.1) describes the standard minimum Euclidean
    distance from a point to a segment, the parameter of the nearest point
    clamped to the segment, and a zero-length segment collapsing to the
    point-to-point distance.  The projection parameter [t] is the only
    place with a division; it is skipped for a zero-length segment. *)
Definition distanceSquaredToLineSegment2
    (lx1 ly1 ldx ldy lineLengthSquared px py : R) : option R :=
  t <- (if Req_dec_T lineLengthSquared 0 then Some 0
        else
          t0 <- js_div ((px - lx1) * ldx + (py - ly1) * ldy)
                       lineLengthSquared ;;
          Some (if ltb t0 0 then 0 else if ltb 1 t0 then 1 else t0)) ;;
  let lx := lx1 + t * ldx in
  let ly := ly1 + t * ldy in
  let dx := px - lx in
  let dy := py - ly in
  Some (dx * dx + dy * dy).

Definition distanceSquaredToLineSegment
    (lx1 ly1 lx2 ly2 px py : R) : option R :=
  let ldx := lx2 - lx1 in
  let ldy := ly2 - ly1 in
  let lineLengthSquared := ldx * ldx + ldy * ldy in
  distanceSquaredToLineSegment2 lx1 ly1 ldx ldy lineLengthSquared px py.

Definition distanceToLineSegment
    (lx1 ly1 lx2 ly2 px py : R) : option R :=
  d2 <- distanceSquaredToLineSegment lx1 ly1 lx2 ly2 px py ;;
  js_sqrt d2.

(** The finite number the call evaluates to, for use as a sort key. *)
Definition distance (lx1 ly1 lx2 ly2 px py : R) : R :=
  match distanceToLineSegment lx1 ly1 lx2 ly2 px py with
  | Some d => d
  | None => 0
  end.

End DistanceToLineSegment.

(** ** underscore's sortBy, imported by src/model/db.js *)

Module Underscore.
Section SortBy.
Context {A : Type}.

(** The object [sortBy] builds for each element before sorting. *)
Record Ranked : Type := mkRanked {
  value : A;
  index : nat;
  criteria : R
}.

(** The comparison handed to [Array.prototype.sort]: by criteria, and by
    position in the input when the criteria are equal. *)
Definition comparator (left right : Ranked) : Z :=
  let a := criteria left in
  let b := criteria right in
  if Req_dec_T a b then (Z.of_nat (index left) - Z.of_nat (index right))%Z
  else if Rlt_dec b a then 1%Z
  else if Rlt_dec a b then (-1)%Z
  else (Z.of_nat (index left) - Z.of_nat (index right))%Z.

Definition precedes (left right : Ranked) : bool :=
  (comparator left right <=? 0)%Z.

(** [_.map(obj, value => ({value, index: index++, criteria: iteratee(value)}))] *)
Fixpoint rank (iteratee : A -> R) (index : nat) (obj : list A)
    : list Ranked :=
  match obj with
  | [] => []
  | v :: rest =>
      {| value := v; index := index; criteria := iteratee v |}
        :: rank iteratee (S index) rest
  end.

(** Modelled from the spec: underscore is not under src/.  The
    specification (section 4.2, step 2) calls the sort stable: ascending
    by the iteratee's result, elements with equal results in their input
    order.  That is the order of [comparator], which is total on the
    ranked elements since their indices differ. *)
Definition sortBy (obj : list A) (iteratee : A -> R) : list A :=
  map value (Sorting.sort precedes (rank iteratee 0 obj)).

End SortBy.
Arguments Ranked : clear implicits.
End Underscore.

(** ** src/model/db.js *)

Module Db.
Import JsNumber.

(** A row of table [Walkspan], with the columns the queries select. *)
Record Sidewalk : Type := mkSidewalk {
  natural_beauty_score : Z;
  manmade_beauty_score : Z;
  comfort_score : Z;
  interest_score : Z;
  safety_score : Z;
  access_score : Z;
  amenities_score : Z;
  sidewalk_starting_longitude : R;
  sidewalk_ending_longitude : R;
  sidewalk_starting_latitude : R;
  sidewalk_ending_latitude : R
}.

(** A row of table [Bronx_Walkability]. *)
Record Walkability : Type := mkWalkability {
  total1 : Z;
  total2 : Z;
  beauty_n : Z;
  beauty_m : Z;
  access : Z;
  interest : Z;
  amenities : Z;
  shape_length : R;
  start_long : R;
  end_long : R;
  start_lat : R;
  end_lat : R
}.

(** What the two exported functions can evaluate to. *)
Inductive Value : Type :=
| Undefined
| WalkspanRow (row : Sidewalk)
| WalkabilityRow (row : Walkability)
| WalkspanRows (rows : list Sidewalk)
| WalkabilityRows (rows : list Walkability).

Inductive Error : Type :=
| ReferenceError (name : string).

(** Outcome of running a statement of a function body. *)
Inductive Completion : Type :=
| Normal
| Return (v : Value)
| Throw (e : Error).

(** [s1; s2]: the second statement runs only if the first completes
    normally. *)
Definition seq (s1 s2 : Completion) : Completion :=
  match s1 with
  | Normal => s2
  | Return v => Return v
  | Throw e => Throw e
  end.

Notation "s1 ;; s2" := (seq s1 s2) (at level 62, right associativity).

(** [rows[0]] *)
Definition first {A : Type} (inj : A -> Value) (rows : list A) : Value :=
  match rows with
  | [] => Undefined
  | row :: _ => inj row
  end.

(** [ORDER BY key ASC] *)
Definition orderBy {A : Type} (key : A -> R) (table : list A) : list A :=
  Sorting.sort (fun x y => leb (key x) (key y)) table.

(** [MIN(ABS(start_lat - :latitude) + ABS(start_long - :longitude),
         ABS(end_lat - :latitude) + ABS(end_long - :longitude))] *)
Definition endpointKey (latitude longitude : R)
    (start_lat start_long end_lat end_long : R) : R :=
  Rmin (Rabs (start_lat - latitude) + Rabs (start_long - longitude))
       (Rabs (end_lat - latitude) + Rabs (end_long - longitude)).

(** [:bottomLat <= lat AND lat <= :topLat AND
     :leftLng <= lng AND lng <= :rightLng] *)
Definition withinBox (box : Geocoder.BoundingBox) (lat lng : R) : bool :=
  leb (Geocoder.bottomLat box) lat && leb lat (Geocoder.topLat box)
  && leb (Geocoder.leftLng box) lng && leb lng (Geocoder.rightLng box).

Section Queries.
(** [require("distance-to-line-segment")] *)
Variable distanceToLineSegment : R -> R -> R -> R -> R -> R -> R.
(** The tables behind the module-level handles [db] and [db2]. *)
Variable db : list Sidewalk.
Variable db2 : list Walkability.

(** First query of [getClosestSidewalk]. *)
Definition sidewalkCandidates (latitude longitude : R) : list Sidewalk :=
  firstn 8
    (orderBy
       (fun row =>
          endpointKey latitude longitude
            (sidewalk_starting_latitude row)
            (sidewalk_starting_longitude row)
            (sidewalk_ending_latitude row)
            (sidewalk_ending_longitude row))
       db).

(** Second query of [getClosestSidewalk]. *)
Definition sidewalkCandidates2 (latitude longitude : R)
    : list Walkability :=
  firstn 8
    (orderBy
       (fun row =>
          endpointKey latitude longitude
            (start_lat row) (start_long row)
            (end_lat row) (end_long row))
       db2).

(** The iteratee passed to [sortBy]. *)
Definition candidateDistance (latitude longitude : R)
    (sidewalkCandidate : Sidewalk) : R :=
  distanceToLineSegment
    (sidewalk_starting_latitude sidewalkCandidate)
    (sidewalk_starting_longitude sidewalkCandidate)
    (sidewalk_ending_latitude sidewalkCandidate)
    (sidewalk_ending_longitude sidewalkCandidate)
    latitude
    longitude.

(** The second [return] names [sortBy2] and [distanceToLineSegment2],
    which the module never binds: evaluating it would raise a
    ReferenceError. *)
Definition getClosestSidewalk (latitude longitude : R) : Completion :=
  let candidates := sidewalkCandidates latitude longitude in
  let candidates2 := sidewalkCandidates2 latitude longitude in
  Return (first WalkspanRow
            (Underscore.sortBy candidates
               (candidateDistance latitude longitude))) ;;
  Throw (ReferenceError "sortBy2").

(** The [WHERE] clause of the first query of [getSidewalksInRadius]. *)
Definition sidewalkInBox (box : Geocoder.BoundingBox) (row : Sidewalk)
    : bool :=
  withinBox box (sidewalk_starting_latitude row)
                (sidewalk_starting_longitude row)
  || withinBox box (sidewalk_ending_latitude row)
                   (sidewalk_ending_longitude row).

(** The [WHERE] clause of the second query. *)
Definition walkabilityInBox (box : Geocoder.BoundingBox)
    (row : Walkability) : bool :=
  withinBox box (start_lat row) (start_long row)
  || withinBox box (end_lat row) (end_long row).

Definition getSidewalksInRadius (latitude longitude range : R)
    : Completion :=
  let box :=
    Geocoder.getBoundingBoxFromCoordinatesAndRange
      latitude longitude range in
  Return (WalkspanRows (filter (sidewalkInBox box) db)) ;;
  Return (WalkabilityRows (filter (walkabilityInBox box) db2)).

End Queries.

(** A point lies in a box: all four comparisons inclusive. *)
Definition InBox (box : Geocoder.BoundingBox) (lat lng : R) : Prop :=
Geocoder.bottomLat box <= lat <= Geocoder.topLat box /\
Geocoder.leftLng box <= lng <= Geocoder.rightLng box.

End Db.

(** ** A small store, for the scenarios of the specification's section 8 *)

Module Sample.
Import Db.

(** The query point of the repository's test for [getClosestSidewalk]. *)
Definition queryLat : R := 40.730610.
Definition queryLng : R := -73.935242.

(** A sidewalk running along latitude 40.73, with the scores the test
    expects. *)
Definition nearRow : Sidewalk :=
  mkSidewalk 1 1 1 1 3 3 1 (-73.936) (-73.934) 40.73 40.73.

(** A zero-length sidewalk north of the query point. *)
Definition pointRow : Sidewalk :=
  mkSidewalk 2 2 2 2 2 2 2 (-73.935242) (-73.935242) 40.74 40.74.

(** A long sidewalk through the query point with both ends far away. *)
Definition crossingRow : Sidewalk :=
  mkSidewalk 3 3 3 3 3 3 3 (-73.935242) (-73.935242) 40.70 40.76.

Definition walkspan : list Sidewalk := [pointRow; nearRow].

Definition walkspanWithCrossing : list Sidewalk :=
  [pointRow; nearRow; crossingRow].

(** A Bronx_Walkability row lying exactly on the query point. *)
Definition bronxRow : Walkability :=
  mkWalkability 9 9 9 9 9 9 9 0 (-73.935242) (-73.935242) 40.730610 40.730610.

Definition bronx : list Walkability := [bronxRow].

End Sample.

(** ** A crowded store: eight short sidewalks next to the query point *)

Module Crowded.
Import Db.

(** A zero-length sidewalk just north of the query point of [Sample]. *)
Definition decoyRow : Sidewalk :=
  mkSidewalk 5 5 5 5 5 5 5 (-73.935242) (-73.935242) 40.7316 40.7316.

(** Eight copies of it, then the long sidewalk through the query point. *)
Definition table : list Sidewalk :=
  repeat decoyRow 8 ++ [Sample.crossingRow].

End Crowded.

(** ** Notions used to state properties of the two queries *)

Module Notions.
Import Db.

(** The sort key of the first query of [getClosestSidewalk], for one row. *)
Definition sidewalkKey (latitude longitude : R) (row : Sidewalk) : R :=
  endpointKey latitude longitude
    (sidewalk_starting_latitude row) (sidewalk_starting_longitude row)
    (sidewalk_ending_latitude row) (sidewalk_ending_longitude row).

(** The same sidewalk stored from its other end. *)
Definition reversed (row : Sidewalk) : Sidewalk :=
  {| natural_beauty_score := natural_beauty_score row;
     manmade_beauty_score := manmade_beauty_score row;
     comfort_score := comfort_score row;
     interest_score := interest_score row;
     safety_score := safety_score row;
     access_score := access_score row;
     amenities_score := amenities_score row;
     sidewalk_starting_longitude := sidewalk_ending_longitude row;
     sidewalk_ending_longitude := sidewalk_starting_longitude row;
     sidewalk_starting_latitude := sidewalk_ending_latitude row;
     sidewalk_ending_latitude := sidewalk_starting_latitude row |}.

(** One of the two ends of the row is the point [(lat, lng)]. *)
Definition endsAt (lat lng : R) (row : Sidewalk) : Prop :=
  (sidewalk_starting_latitude row = lat /\
   sidewalk_starting_longitude row = lng) \/
  (sidewalk_ending_latitude row = lat /\
   sidewalk_ending_longitude row = lng).

End Notions.

(** ** Strings: [split] on a character and [join] *)

Module JsString.
Import Ascii.

(** [s.split(sep)] for a one-character separator: the pieces of [s]
    between the occurrences of [sep], never an empty array. *)
Fixpoint split (sep : Ascii.ascii) (s : string) : list string :=
  match s with
  | EmptyString => [EmptyString]
  | String a rest =>
      match split sep rest with
      | [] => [String a EmptyString]
      | piece :: pieces =>
          if Ascii.eqb a sep then EmptyString :: piece :: pieces
          else String a piece :: pieces
      end
  end.

(** [pieces.join(sep)] *)
Fixpoint join (sep : string) (pieces : list string) : string :=
  match pieces with
  | [] => EmptyString
  | piece :: rest =>
      match rest with
      | [] => piece
      | _ :: _ => (piece ++ sep ++ join sep rest)%string
      end
  end.

(** [s] with every occurrence of the character [c] left out. *)
Fixpoint without (c : Ascii.ascii) (s : string) : string :=
  match s with
  | EmptyString => EmptyString
  | String a rest =>
      if Ascii.eqb a c then without c rest else String a (without c rest)
  end.

Definition space : Ascii.ascii := " "%char.
Definition newline : Ascii.ascii := "010"%char.

(** [s] with its spaces and line breaks left out. *)
Definition squeezed (s : string) : string :=
  without newline (without space s).

End JsString.

(** ** Promises, as far as the code below uses them *)

Module Promise.

(** A settled promise: fulfilled with a value, or rejected ([None]; the
    reason is not tracked). *)
Definition Promise (A : Type) : Type := option A.

(** [p.then(f)] for a callback that returns a plain value. *)
Definition then_ {A B : Type} (p : Promise A) (f : A -> B) : Promise B :=
  match p with
  | Some a => Some (f a)
  | None => None
  end.

(** [p.then(f)] for a callback that may throw, which rejects the result. *)
Definition thenTry {A B : Type} (p : Promise A) (f : A -> option B)
    : Promise B :=
  match p with
  | Some a => f a
  | None => None
  end.

(** [Promise.all(ps)]: fulfilled with all the values, in the order of
    [ps], when every promise is fulfilled; rejected otherwise. *)
Fixpoint all {A : Type} (ps : list (Promise A)) : Promise (list A) :=
  match ps with
  | [] => Some []
  | p :: rest =>
      match p, all rest with
      | Some a, Some values => Some (a :: values)
      | _, _ => None
      end
  end.

End Promise.

(** ** src/lib/overpass.js *)

Module Overpass.
Import JsString Geocoder.

(** One element of [response.features], with the two members the code
    reads: [properties.tags.name] (possibly undefined) and
    [geometry.coordinates].  A response is taken to be a feature collection:
    [features] is an array and each of its elements has [properties.tags]
    and a [geometry]; an answer of another shape, on which the callbacks of
    [getLifestyleEssentials] would throw, is not modelled. *)
Record Feature : Type := mkFeature {
  tags_name : option string;
  coordinates : list R
}.

Record Response : Type := mkResponse {
  features : list Feature
}.

Section Query.
(** The text a number takes inside a template literal. *)
Variable numberToString : R -> string.
(** [util.promisify(require('query-overpass'))] *)
Variable queryOverpass : string -> Promise.Promise Response.

(** The query text handed to [queryOverpass]. *)
Definition query (tag : string) (latitude longitude range : R) : string :=
  let box := getBoundingBoxFromCoordinatesAndRange latitude longitude range in
  let template :=
    (String newline "      node"
     ++ String newline "        [" ++ tag ++ "]"
     ++ String newline "        (" ++ numberToString (bottomLat box)
     ++ ", " ++ numberToString (leftLng box)
     ++ ", " ++ numberToString (topLat box)
     ++ ", " ++ numberToString (rightLng box) ++ ");"
     ++ String newline "      out"
     ++ String newline "    ")%string in
  (join "" (split newline (join "" (split space template))) ++ " 20;")%string.

Definition queryOverpassForTags (tag : string)
    (latitude longitude range : R) : Promise.Promise Response :=
  queryOverpass (query tag latitude longitude range).

End Query.
End Overpass.

(** ** src/lib/essentialsHelper.js *)

Module EssentialsHelper.
Import Overpass.

(** One lifestyle essential, as built by the four callbacks. *)
Record Essential : Type := mkEssential {
  name : option string;
  latitude : option R;
  longitude : option R;
  category_general : string
}.

(** The object each callback builds from a feature; the four callbacks
    differ in the category only. *)
Definition essentialOf (category : string) (feature : Feature) : Essential :=
  let coordinates := Overpass.coordinates feature in
  {| name := tags_name feature;
     latitude := nth_error coordinates 1;
     longitude := nth_error coordinates 0;
     category_general := category |}.

(** [array.reduce(f)] without an initial value; it throws on an empty
    array. *)
Definition reduce {A : Type} (f : A -> A -> A) (array : list A) : option A :=
  match array with
  | [] => None
  | first :: rest => Some (fold_left f rest first)
  end.

Section Essentials.
Variable numberToString : R -> string.
Variable queryOverpass : string -> Promise.Promise Response.

Definition getLifestyleEssentials (latitude longitude range : R)
    : Promise.Promise (list Essential) :=
  let resturants :=
    Promise.then_
      (Promise.then_
         (queryOverpassForTags numberToString queryOverpass
            "amenity=restaurant" latitude longitude range)
         features)
      (map (essentialOf "food")) in
  let publicTransit :=
    Promise.then_
      (Promise.then_
         (queryOverpassForTags numberToString queryOverpass
            "public_transport" latitude longitude range)
         features)
      (map (essentialOf "public transit")) in
  let interest :=
    Promise.then_
      (Promise.then_
         (queryOverpassForTags numberToString queryOverpass
            "tourism" latitude longitude range)
         features)
      (map (essentialOf "interest")) in
  let comfort :=
    Promise.then_
      (Promise.then_
         (queryOverpassForTags numberToString queryOverpass
            "leisure" latitude longitude range)
         features)
      (map (essentialOf "comfort")) in
  Promise.thenTry
    (Promise.all [resturants; publicTransit; interest; comfort])
    (fun fetchedEssentials =>
       reduce (fun prev next => prev ++ next) fetchedEssentials).

End Essentials.
End EssentialsHelper.

(** ** src/lib/handlebarsHelper.js *)

Module HandlebarsHelper.
Import Geocoder Db EssentialsHelper.

(** [new Set(array)] of strings, listed in insertion order. *)
Definition setAdd (set : list string) (x : string) : list string :=
  if existsb (String.eqb x) set then set else set ++ [x].

Definition newSet (array : list string) : list string :=
  fold_left setAdd array [].

(** A category, listed when [n] features carry it. *)
Definition listed (n : nat) (category : string) : list string :=
  match n with
  | O => []
  | S _ => [category]
  end.

(** The object [generateEssentialsWidget] hands to its compiled template. *)
Record EssentialsContext : Type := mkEssentialsContext {
  essentials_box : BoundingBox;
  categories : list string;
  essentialsList : list Essential
}.

Definition essentialsContext (latitude longitude range : R)
    (essentialsList : list Essential) : EssentialsContext :=
  let box := getBoundingBoxFromCoordinatesAndRange latitude longitude range in
  let categories := newSet (map category_general essentialsList) in
  {| essentials_box := box;
     categories := categories;
     essentialsList := essentialsList |}.

(** The object [generateScoreWidget] hands to its compiled template. *)
Record ScoreContext : Type := mkScoreContext {
  score_box : BoundingBox;
  score_latitude : R;
  score_longitude : R;
  closestSidewalk : Value;
  sidewalksInRadius : Value
}.

Section ScoreWidget.
(** [compile(readFileSync('./src/templates/handlebars/score.handlebars'))] *)
Variable scoreTemplate : ScoreContext -> string.

Definition generateScoreWidget (latitude longitude : R)
    (closestSidewalk sidewalksInRadius : Value) (range : R) : string :=
  let box := getBoundingBoxFromCoordinatesAndRange latitude longitude range in
  scoreTemplate
    {| score_box := box;
       score_latitude := latitude;
       score_longitude := longitude;
       closestSidewalk := closestSidewalk;
       sidewalksInRadius := sidewalksInRadius |}.

End ScoreWidget.
End HandlebarsHelper.

(** ** src/route/score.js: the handler after validation and city check *)

Module ScoreRoute.
Import Db HandlebarsHelper.

Inductive RouteError : Type :=
| DbError (e : Error)
| TypeError.

(** The body of the JSON answer: the seven scores read off the closest
    sidewalk (a member the object lacks reads as undefined), and the
    coordinates of the request. *)
Record ScoreJson : Type := mkScoreJson {
  json_natural_beauty_score : option Z;
  json_manmade_beauty_score : option Z;
  json_comfort_score : option Z;
  json_interest_score : option Z;
  json_safety_score : option Z;
  json_access_score : option Z;
  json_amenities_score : option Z;
  json_latitude : R;
  json_longitude : R
}.

Inductive Body : Type :=
| Html (source : string)
| Json (scores : ScoreJson).

Inductive Outcome : Type :=
| Respond (status : nat) (body : Body)
| Raise (e : RouteError).

(** The value of a call expression [f(...)], or the error it raises. *)
Definition call (c : Completion) : Value + RouteError :=
  match c with
  | Normal => inl Undefined
  | Return v => inl v
  | Throw e => inr (DbError e)
  end.

(** [const {natural_beauty_score, ...} = value]: reading members off
    [undefined] raises a TypeError. *)
Definition destructureScores (latitude longitude : R) (value : Value)
    : ScoreJson + RouteError :=
  match value with
  | Undefined => inr TypeError
  | WalkspanRow row =>
      inl {| json_natural_beauty_score := Some (natural_beauty_score row);
             json_manmade_beauty_score := Some (manmade_beauty_score row);
             json_comfort_score := Some (comfort_score row);
             json_interest_score := Some (interest_score row);
             json_safety_score := Some (safety_score row);
             json_access_score := Some (access_score row);
             json_amenities_score := Some (amenities_score row);
             json_latitude := latitude;
             json_longitude := longitude |}
  | WalkabilityRow _ | WalkspanRows _ | WalkabilityRows _ =>
      inl {| json_natural_beauty_score := None;
             json_manmade_beauty_score := None;
             json_comfort_score := None;
             json_interest_score := None;
             json_safety_score := None;
             json_access_score := None;
             json_amenities_score := None;
             json_latitude := latitude;
             json_longitude := longitude |}
  end.

Section Handler.
Variable distanceToLineSegment : R -> R -> R -> R -> R -> R -> R.
Variable scoreTemplate : ScoreContext -> string.
Variable db : list Sidewalk.
Variable db2 : list Walkability.

(** The [if (displayWidget) ... else ...] at the end of the two handlers
    of the score route. *)
Definition respond (displayWidget : bool) (latitude longitude range : R)
    : Outcome :=
  if displayWidget then
    match call (getSidewalksInRadius db db2 latitude longitude range) with
    | inr e => Raise e
    | inl sidewalksInRadius =>
        match call (getClosestSidewalk distanceToLineSegment db db2
                      latitude longitude) with
        | inr e => Raise e
        | inl closestSidewalk =>
            Respond 200
              (Html (generateScoreWidget scoreTemplate latitude longitude
                       closestSidewalk sidewalksInRadius range))
        end
    end
  else
    match call (getClosestSidewalk distanceToLineSegment db db2
                  latitude longitude) with
    | inr e => Raise e
    | inl closest =>
        match destructureScores latitude longitude closest with
        | inr e => Raise e
        | inl scores => Respond 200 (Json scores)
        end
    end.

End Handler.
End ScoreRoute.

(** ** The essentials route: what it fetches and what it shows *)

Module EssentialsRoute.
Import EssentialsHelper HandlebarsHelper.

Section Handler.
Variable numberToString : R -> string.
Variable queryOverpass : string -> Promise.Promise Overpass.Response.

(** [await getLifestyleEssentials(latitude, longitude, range*1.5)] *)
Definition lifestyleEssentials (latitude longitude range : R)
    : Promise.Promise (list Essential) :=
  getLifestyleEssentials numberToString queryOverpass
    latitude longitude (range * 1.5).

(** The template context of the widget answer, built with [range]
    itself. *)
Definition widgetContext (latitude longitude range : R)
    : Promise.Promise EssentialsContext :=
  Promise.then_ (lifestyleEssentials latitude longitude range)
    (essentialsContext latitude longitude range).

End Handler.
End EssentialsRoute.

(** ** A stand-in for the Overpass service and the templates *)

Module SampleService.
Import Overpass HandlebarsHelper.

(** A feature as Overpass returns it: longitude first. *)
Definition cafe : Feature :=
  {| tags_name := Some "Cafe"%string;
     coordinates := [-73.936; 40.73] |}.

(** A service that answers every query with that one feature. *)
Definition queryOverpass (query : string) : Promise.Promise Response :=
  Some {| features := [cafe] |}.

(** A rendering of numbers that ignores the number. *)
Definition numberToString (x : R) : string := "0"%string.

(** A template that renders nothing. *)
Definition scoreTemplate (context : ScoreContext) : string := ""%string.

End SampleService.

(** ** src/lib/geocoder.js in binary64

    The same function on the numbers JavaScript computes with: every
    operation is the IEEE 754 binary64 one, every literal the nearest
    binary64 number.  [Math.cos] is left to the implementation by the
    language, so it is a parameter; [Math.PI] is the binary64 number
    nearest to pi. *)

Module Binary64.
Import PrimFloat.
Local Open Scope float_scope.
Set Warnings "-inexact-float".

Record BoundingBox : Type := mkBoundingBox {
  topLat : float;
  bottomLat : float;
  leftLng : float;
  rightLng : float
}.

(** [Math.PI] *)
Definition PI : float := 0x1.921fb54442d18p+1.

Section MathCos.
Variable cos : float -> float.

Definition getBoundingBoxFromCoordinatesAndRange
    (latitude longitude range : float) : BoundingBox :=
  let pDistanceInMeters := range * 1609.344 in
  let latRadian := latitude * PI / 180 in
  let degLatKm := 110.574235 in
  let degLongKm := 110.572833 * cos latRadian in
  let deltaLat := pDistanceInMeters / 1000.0 / degLatKm in
  let deltaLong := pDistanceInMeters / 1000.0 / degLongKm in
  {| topLat := latitude + deltaLat;
     bottomLat := latitude - deltaLat;
     leftLng := longitude - deltaLong;
     rightLng := longitude + deltaLong |}.

End MathCos.
Set Warnings "+inexact-float".
End Binary64.

(** ** src/lib/geocoder.js and the range query with rounded arithmetic

    Between exact arithmetic and binary64: the result of every operation,
    and every literal, goes through a rounding function [rnd], which is a
    parameter together with [Math.PI] and [Math.cos].  With the identity
    for [rnd] this is [Geocoder]; round-to-nearest of binary64 is another
    instance as long as no result overflows.  A quotient by zero is the
    total division of [R]. *)

Module Rounded.
Import JsNumber Geocoder Db.

Section Arithmetic.
Variable rnd : R -> R.
Variable pi64 : R.
Variable cos64 : R -> R.

Definition latRadian (latitude : R) : R :=
  rnd (rnd (Number latitude * pi64) / rnd 180).

Definition degLongKm (latitude : R) : R :=
  rnd (rnd 110.572833 * cos64 (latRadian latitude)).

Definition deltaLat (range : R) : R :=
  rnd (rnd (rnd (range * rnd 1609.344) / rnd 1000.0) / rnd 110.574235).

Definition deltaLong (latitude range : R) : R :=
  rnd (rnd (rnd (range * rnd 1609.344) / rnd 1000.0) / degLongKm latitude).

Definition getBoundingBoxFromCoordinatesAndRange
    (latitude longitude range : R) : BoundingBox :=
  let pDistanceInMeters := rnd (range * rnd 1609.344) in
  let latRadian := rnd (rnd (Number latitude * pi64) / rnd 180) in
  let degLatKm := rnd 110.574235 in
  let degLongKm := rnd (rnd 110.572833 * cos64 latRadian) in
  let deltaLat := rnd (rnd (pDistanceInMeters / rnd 1000.0) / degLatKm) in
  let deltaLong := rnd (rnd (pDistanceInMeters / rnd 1000.0) / degLongKm) in
  {| topLat := rnd (Number latitude + deltaLat);
     bottomLat := rnd (Number latitude - deltaLat);
     leftLng := rnd (Number longitude - deltaLong);
     rightLng := rnd (Number longitude + deltaLong) |}.

Variable db : list Sidewalk.
Variable db2 : list Walkability.

Definition getSidewalksInRadius (latitude longitude range : R)
    : Completion :=
  let box :=
    getBoundingBoxFromCoordinatesAndRange latitude longitude range in
  Return (WalkspanRows (filter (sidewalkInBox box) db)) ;;
  Return (WalkabilityRows (filter (walkabilityInBox box) db2)).

End Arithmetic.

(** The unit roundoff of binary64. *)
Definition unitRoundoff : R := / 9007199254740992.

End Rounded.

(** * Properties *)

(** ** The bounding box *)

Section BoundingBoxFacts.
Import Geocoder.

Lemma spec_deltaLat_is_linear (r : R) :
spec_deltaLat r = r * (1609.344 / 1000 / 110.574235).
Proof. unfold spec_deltaLat. lra. Qed.

Lemma cos_latRadian_pos (lat : R) :
Rabs lat < 90 -> 0 < cos (lat * PI / 180).
Proof.
intros Hlat. apply Rabs_def2 in Hlat. destruct Hlat as [Hhi Hlo].
pose proof PI_RGT_0 as Hpi.
apply cos_gt_0; nra.
Qed.

Lemma spec_deltaLng_is_linear (lat r : R) :
Rabs lat < 90 ->
spec_deltaLng lat r
= r * (1609.344 / 1000 / (110.572833 * cos (lat * PI / 180))).
Proof.
intros Hlat. pose proof (cos_latRadian_pos lat Hlat) as Hcos.
unfold spec_deltaLng. field. lra.
Qed.

Lemma lng_factor_pos (lat : R) :
Rabs lat < 90 ->
0 < 1609.344 / 1000 / (110.572833 * cos (lat * PI / 180)).
Proof.
intros Hlat. pose proof (cos_latRadian_pos lat Hlat) as Hcos.
apply Rdiv_lt_0_compat; nra.
Qed.

Lemma box_unfold (lat lon r : R) :
getBoundingBoxFromCoordinatesAndRange lat lon r =
{| topLat := lat + spec_deltaLat r;
   bottomLat := lat - spec_deltaLat r;
   leftLng := lon - spec_deltaLng lat r;
   rightLng := lon + spec_deltaLng lat r |}.
Proof.
unfold getBoundingBoxFromCoordinatesAndRange, spec_deltaLat,
  spec_deltaLng, JsNumber.Number.
replace 1000.0 with 1000 by lra.
reflexivity.
Qed.

(** C3.  For every latitude, longitude and range in miles the function
  returns exactly the box [lat + deltaLat], [lat - deltaLat],
  [lon - deltaLng], [lon + deltaLng], with
  [deltaLat = (r * 1609.344 / 1000) / 110.574235] and
  [deltaLng = (r * 1609.344 / 1000) / (110.572833 * cos (lat * PI / 180))]. *)
Theorem getBoundingBox_exact_formula (lat lon r : R) :
let deltaLat := (r * 1609.344 / 1000) / 110.574235 in
let deltaLng :=
  (r * 1609.344 / 1000) / (110.572833 * cos (lat * PI / 180)) in
getBoundingBoxFromCoordinatesAndRange lat lon r =
{| topLat := lat + deltaLat;
   bottomLat := lat - deltaLat;
   leftLng := lon - deltaLng;
   rightLng := lon + deltaLng |}.
Proof.
intros deltaLat deltaLng. rewrite box_unfold. reflexivity.
Qed.

End BoundingBoxFacts.

(** ** Sorting: the head of an insertion-sorted list *)

Section SortingFacts.
Context {A : Type}.
Variable before : A -> A -> bool.

Lemma hd_error_insert (x : A) (l : list A) :
  hd_error (Sorting.insert before x l) =
  match hd_error l with
  | None => Some x
  | Some h => if before x h then Some x else Some h
  end.
Proof.
  destruct l as [|h t]; cbn.
  - reflexivity.
  - destruct (before x h); reflexivity.
Qed.

Lemma length_insert (x : A) (l : list A) :
  length (Sorting.insert before x l) = S (length l).
Proof.
  induction l as [|h t IH]; cbn.
  - reflexivity.
  - destruct (before x h); cbn; [reflexivity | now rewrite IH].
Qed.

Lemma length_sort (l : list A) :
  length (Sorting.sort before l) = length l.
Proof.
  induction l as [|h t IH]; cbn.
  - reflexivity.
  - now rewrite length_insert, IH.
Qed.

Lemma in_insert (x y : A) (l : list A) :
  In y (Sorting.insert before x l) <-> y = x \/ In y l.
Proof.
  induction l as [|h t IH]; cbn.
  - intuition congruence.
  - destruct (before x h); cbn; [intuition congruence|].
    rewrite IH. intuition congruence.
Qed.

Lemma in_sort (y : A) (l : list A) :
  In y (Sorting.sort before l) <-> In y l.
Proof.
  induction l as [|h t IH]; cbn.
  - reflexivity.
  - rewrite in_insert, IH. intuition congruence.
Qed.

Lemma insert_permutation (x : A) (l : list A) :
  Permutation (Sorting.insert before x l) (x :: l).
Proof.
  induction l as [|h t IH]; cbn.
  - apply Permutation_refl.
  - destruct (before x h).
    + apply Permutation_refl.
    + eapply perm_trans; [apply perm_skip, IH | apply perm_swap].
Qed.

Lemma sort_permutation (l : list A) :
  Permutation (Sorting.sort before l) l.
Proof.
  induction l as [|h t IH]; cbn.
  - apply perm_nil.
  - eapply perm_trans; [apply insert_permutation | apply perm_skip, IH].
Qed.

(** When any two elements are comparable one way or the other, the output
    is ordered: each element comes before its successor. *)
Hypothesis before_total :
  forall x y, before x y = false -> before y x = true.

Lemma insert_sorted (x : A) (l : list A) :
  Sorted (fun a b => before a b = true) l ->
  Sorted (fun a b => before a b = true) (Sorting.insert before x l).
Proof.
  induction l as [|h t IH]; intros Hs; cbn.
  - repeat constructor.
  - destruct (before x h) eqn:Hxh.
    + constructor; [exact Hs | constructor; exact Hxh].
    + apply Sorted_inv in Hs. destruct Hs as [Ht Hhd].
      constructor; [apply IH, Ht|].
      destruct t as [|h' t']; cbn.
      * constructor. apply before_total, Hxh.
      * destruct (before x h'); constructor.
        -- apply before_total, Hxh.
        -- apply HdRel_inv in Hhd. exact Hhd.
Qed.

Lemma sort_sorted (l : list A) :
  Sorted (fun a b => before a b = true) (Sorting.sort before l).
Proof.
  induction l as [|h t IH]; cbn.
  - constructor.
  - apply insert_sorted, IH.
Qed.

End SortingFacts.

(** ** underscore's sortBy: its first element *)

Section SortByFacts.
Import Underscore.
Context {A : Type}.
Variable iteratee : A -> R.

Lemma precedes_spec (l r : Ranked A) :
  precedes l r = true <->
  criteria l < criteria r \/
  (criteria l = criteria r /\ (index l <= index r)%nat).
Proof.
  unfold precedes, comparator.
  destruct (Req_dec_T (criteria l) (criteria r)) as [Heq|Hne].
  - rewrite Z.leb_le. split.
    + intros H. right. split; [assumption | lia].
    + intros [Hlt | [_ Hle]]; [lra | lia].
  - destruct (Rlt_dec (criteria r) (criteria l)) as [Hgt|Hngt].
    + split; [discriminate | intros [Hlt | [Heq _]]; lra].
    + destruct (Rlt_dec (criteria l) (criteria r)) as [Hlt|Hnlt].
      * split; [intros _; now left | reflexivity].
      * lra.
Qed.

(** The first ranked element after sorting is the earliest element of the
    input whose criteria is least. *)
Lemma sort_rank_head : forall (obj : list A) (k : nat),
  obj <> [] ->
  exists (i : nat) (v : A),
    hd_error (Sorting.sort precedes (rank iteratee k obj)) =
      Some {| value := v; index := k + i; criteria := iteratee v |} /\
    nth_error obj i = Some v /\
    (forall c, In c obj -> iteratee v <= iteratee c) /\
    (forall j c, (j < i)%nat -> nth_error obj j = Some c ->
                 iteratee v < iteratee c).
Proof.
  induction obj as [|a rest IH]; intros k Hne; [congruence|].
  cbn [rank Sorting.sort]. rewrite hd_error_insert.
  destruct rest as [|b rest'].
  - cbn. exists 0%nat, a. rewrite Nat.add_0_r.
    repeat split.
    + intros c [<- | []]. lra.
    + intros j c Hj. lia.
  - destruct (IH (S k)) as (i & v & Hhd & Hnth & Hmin & Hfirst);
      [discriminate|].
    rewrite Hhd.
    destruct (precedes _ _) eqn:Hp.
    + apply precedes_spec in Hp. cbn in Hp.
      assert (Hav : iteratee a <= iteratee v) by (destruct Hp as [?|[? _]]; lra).
      exists 0%nat, a. rewrite Nat.add_0_r. repeat split.
      * intros c [<- | Hc]; [lra|]. specialize (Hmin c Hc). lra.
      * intros j c Hj. lia.
    + assert (Hva : iteratee v < iteratee a).
      { destruct (Rlt_dec (iteratee v) (iteratee a)) as [?|Hn]; [assumption|].
        exfalso. assert (Hp' : precedes
          {| value := a; index := k; criteria := iteratee a |}
          {| value := v; index := S k + i; criteria := iteratee v |} = true).
        { apply precedes_spec. cbn.
          destruct (Req_dec_T (iteratee a) (iteratee v)) as [He|He].
          - right. split; [assumption | lia].
          - left. lra. }
        congruence. }
      exists (S i), v. rewrite Nat.add_succ_r. repeat split.
      * exact Hnth.
      * intros c [<- | Hc]; [lra | now apply Hmin].
      * intros [|j] c Hj Hc; cbn in Hc.
        -- injection Hc as <-. exact Hva.
        -- apply (Hfirst j c); [lia | exact Hc].
Qed.

(** [sortBy(obj, iteratee)[0]] for a non-empty [obj]. *)
Lemma sortBy_head (obj : list A) :
  obj <> [] ->
  exists (v : A) (earlier later : list A),
    hd_error (sortBy obj iteratee) = Some v /\
    obj = earlier ++ v :: later /\
    (forall c, In c obj -> iteratee v <= iteratee c) /\
    (forall c, In c earlier -> iteratee v < iteratee c).
Proof.
  intros Hne.
  destruct (sort_rank_head obj 0 Hne) as (i & v & Hhd & Hnth & Hmin & Hfirst).
  destruct (nth_error_split obj i Hnth) as (earlier & later & Hobj & Hlen).
  exists v, earlier, later. repeat split.
  - unfold sortBy.
    destruct (Sorting.sort precedes (rank iteratee 0 obj)) as [|e es];
      [discriminate|].
    cbn in Hhd |- *. injection Hhd as ->. reflexivity.
  - exact Hobj.
  - exact Hmin.
  - intros c Hc. apply In_nth_error in Hc. destruct Hc as [j Hj].
    assert (Hjlt : (j < i)%nat).
    { rewrite <- Hlen. apply nth_error_Some. congruence. }
    apply (Hfirst j c Hjlt).
    rewrite Hobj, nth_error_app1; [exact Hj | lia].
Qed.

Lemma precedes_total (l r : Ranked A) :
  precedes l r = false -> precedes r l = true.
Proof.
  intros Hf. apply precedes_spec.
  destruct (Rtotal_order (criteria r) (criteria l)) as [Hlt|[Heq|Hgt]].
  - now left.
  - right. split; [exact Heq|].
    destruct (Nat.le_gt_cases (index r) (index l)) as [Hle|Hgt];
      [exact Hle|].
    exfalso. assert (Ht : precedes l r = true).
    { apply precedes_spec. right. split; [now symmetry | lia]. }
    congruence.
  - exfalso. assert (Ht : precedes l r = true)
      by (apply precedes_spec; now left).
    congruence.
Qed.

Lemma rank_criteria (obj : list A) (k : nat) :
  Forall (fun e => criteria e = iteratee (value e)) (rank iteratee k obj).
Proof.
  revert k. induction obj as [|v rest IH]; intros k; cbn.
  - constructor.
  - constructor; [reflexivity | apply IH].
Qed.

Lemma rank_values (obj : list A) (k : nat) :
  map value (rank iteratee k obj) = obj.
Proof.
  revert k. induction obj as [|v rest IH]; intros k; cbn.
  - reflexivity.
  - now rewrite IH.
Qed.

(** [sortBy] rearranges its input, and nothing else. *)
Lemma sortBy_permutation (obj : list A) :
  Permutation (sortBy obj iteratee) obj.
Proof.
  unfold sortBy. rewrite <- (rank_values obj 0) at 2.
  apply Permutation_map, sort_permutation.
Qed.

(** The output of [sortBy] ascends in the iteratee's result. *)
Lemma sortBy_ascending (obj : list A) :
  Sorted (fun x y => iteratee x <= iteratee y) (sortBy obj iteratee).
Proof.
  unfold sortBy.
  pose proof (sort_sorted precedes precedes_total (rank iteratee 0 obj))
    as Hsorted.
  assert (Hcrit : Forall (fun e => criteria e = iteratee (value e))
                         (Sorting.sort precedes (rank iteratee 0 obj))).
  { apply Forall_forall. intros e He.
    apply (Permutation_in _ (sort_permutation precedes _)) in He.
    revert e He. apply Forall_forall, rank_criteria. }
  induction Hsorted as [|e es Hes IH Hhd]; cbn.
  - constructor.
  - apply Forall_inv in Hcrit as He. apply Forall_inv_tail in Hcrit as Htl.
    constructor; [apply IH, Htl|].
    destruct es as [|e' es']; cbn; constructor.
    apply HdRel_inv in Hhd. apply precedes_spec in Hhd.
    apply Forall_inv in Htl. rewrite <- He, <- Htl.
    destruct Hhd as [Hlt | [Heq _]]; lra.
Qed.

Lemma sortBy_nil : sortBy (@nil A) iteratee = [].
Proof. reflexivity. Qed.

End SortByFacts.

(** ** The point-to-segment distance *)

Section DistanceFacts.
Import JsNumber DistanceToLineSegment.

Lemma js_sqrt_nonneg (x : R) : 0 <= x -> js_sqrt x = Some (sqrt x).
Proof.
  intros Hx. unfold js_sqrt. destruct (Rlt_dec x 0); [lra | reflexivity].
Qed.

Lemma sum_squares_nonneg (a b : R) : 0 <= a * a + b * b.
Proof. nra. Qed.

Lemma distanceSquared_degenerate (ax ay px py : R) :
  distanceSquaredToLineSegment ax ay ax ay px py =
  Some ((px - ax) * (px - ax) + (py - ay) * (py - ay)).
Proof.
  unfold distanceSquaredToLineSegment, distanceSquaredToLineSegment2.
  destruct (Req_dec_T _ 0) as [_|Hne].
  - cbn. f_equal. ring.
  - exfalso. apply Hne. ring.
Qed.

(** The distance has a finite value for every segment and point. *)
Lemma distanceToLineSegment_total (lx1 ly1 lx2 ly2 px py : R) :
  exists d, distanceToLineSegment lx1 ly1 lx2 ly2 px py = Some d /\ 0 <= d.
Proof.
  unfold distanceToLineSegment, distanceSquaredToLineSegment,
    distanceSquaredToLineSegment2, js_div.
  destruct (Req_dec_T _ 0) as [Hz|Hnz]; cbn.
  - eexists. split; [apply js_sqrt_nonneg, sum_squares_nonneg | apply sqrt_pos].
  - eexists. split; [apply js_sqrt_nonneg, sum_squares_nonneg | apply sqrt_pos].
Qed.

(** C7.  For a segment whose two ends coincide the distance from any point
    is computed without a division, has a value, and that value is the
    Euclidean distance from the point to the coinciding end: 5 for the
    point (3, 4) and the segment collapsed at the origin.  The same holds
    for the key by which [getClosestSidewalk] ranks such a row. *)
Theorem distanceToLineSegment_degenerate (ax ay px py : R) :
  distanceToLineSegment ax ay ax ay px py =
    Some (sqrt ((px - ax) * (px - ax) + (py - ay) * (py - ay))) /\
  distanceToLineSegment 0 0 0 0 3 4 = Some 5 /\
  (forall row : Db.Sidewalk,
     Db.sidewalk_ending_latitude row = Db.sidewalk_starting_latitude row ->
     Db.sidewalk_ending_longitude row = Db.sidewalk_starting_longitude row ->
     Db.candidateDistance distance px py row =
     sqrt ((px - Db.sidewalk_starting_latitude row)
           * (px - Db.sidewalk_starting_latitude row)
           + (py - Db.sidewalk_starting_longitude row)
             * (py - Db.sidewalk_starting_longitude row))).
Proof.
  assert (Hgen : forall a b p q,
    distanceToLineSegment a b a b p q =
    Some (sqrt ((p - a) * (p - a) + (q - b) * (q - b)))).
  { intros a b p q. unfold distanceToLineSegment.
    rewrite distanceSquared_degenerate. cbn.
    apply js_sqrt_nonneg, sum_squares_nonneg. }
  split; [apply Hgen|]. split.
  - rewrite Hgen. f_equal.
    replace ((3 - 0) * (3 - 0) + (4 - 0) * (4 - 0)) with (5 * 5) by lra.
    apply sqrt_square. lra.
  - intros row Hlat Hlng. unfold Db.candidateDistance, distance.
    rewrite Hlat, Hlng, Hgen. reflexivity.
Qed.

End DistanceFacts.

(** ** The two queries of src/model/db.js *)

Section DbFacts.
Import JsNumber Db.

Lemma seq_return (v : Value) (rest : Completion) :
  (Return v ;; rest) = Return v.
Proof. reflexivity. Qed.

Lemma leb_spec (x y : R) : leb x y = true <-> x <= y.
Proof.
  unfold leb. destruct (Rle_dec x y); split; intros; try assumption;
    try reflexivity; try discriminate; contradiction.
Qed.

Lemma withinBox_spec (box : Geocoder.BoundingBox) (lat lng : R) :
  withinBox box lat lng = true <-> InBox box lat lng.
Proof.
  unfold withinBox, InBox. rewrite !andb_true_iff, !leb_spec. tauto.
Qed.

Lemma sidewalkInBox_spec (box : Geocoder.BoundingBox) (row : Sidewalk) :
  sidewalkInBox box row = true <->
  InBox box (sidewalk_starting_latitude row) (sidewalk_starting_longitude row)
  \/ InBox box (sidewalk_ending_latitude row) (sidewalk_ending_longitude row).
Proof.
  unfold sidewalkInBox. rewrite orb_true_iff, !withinBox_spec. tauto.
Qed.

Lemma sidewalkCandidates_length (db : list Sidewalk) (lat lon : R) :
  length (sidewalkCandidates db lat lon) = Nat.min 8 (length db).
Proof.
  unfold sidewalkCandidates, orderBy.
  now rewrite length_firstn, length_sort.
Qed.

Lemma sidewalkCandidates_nil_iff (db : list Sidewalk) (lat lon : R) :
  sidewalkCandidates db lat lon = [] <-> db = [].
Proof.
  split.
  - intros H. apply (f_equal (@length _)) in H.
    rewrite sidewalkCandidates_length in H. cbn [length] in H.
    destruct db; [reflexivity | cbn [length] in H; lia].
  - intros ->. reflexivity.
Qed.

Lemma sidewalkCandidates_incl (db : list Sidewalk) (lat lon : R) :
  incl (sidewalkCandidates db lat lon) db.
Proof.
  intros row Hrow. unfold sidewalkCandidates, orderBy in Hrow.
  eapply in_sort. rewrite <- (firstn_skipn 8).
  apply in_or_app. left. exact Hrow.
Qed.

Lemma getClosestSidewalk_unfold
    (dist : R -> R -> R -> R -> R -> R -> R)
    (db : list Sidewalk) (db2 : list Walkability) (lat lon : R) :
  getClosestSidewalk dist db db2 lat lon =
  Return (first WalkspanRow
            (Underscore.sortBy (sidewalkCandidates db lat lon)
               (candidateDistance dist lat lon))).
Proof. reflexivity. Qed.

(** C1.  Whenever the pre-filter retrieves at least one candidate,
    [getClosestSidewalk] returns a row that is one of the (at most eight)
    candidates, whose distance (the imported function applied to the two
    ends of the row and to the query point) is at most that of every
    candidate, and strictly below that of every candidate retrieved before
    it: among equally near candidates the first retrieved is returned. *)
Theorem getClosestSidewalk_nearest_candidate
    (dist : R -> R -> R -> R -> R -> R -> R)
    (db : list Sidewalk) (db2 : list Walkability) (lat lon : R) :
  sidewalkCandidates db lat lon <> [] ->
  exists (s : Sidewalk) (earlier later : list Sidewalk),
    getClosestSidewalk dist db db2 lat lon = Return (WalkspanRow s) /\
    sidewalkCandidates db lat lon = earlier ++ s :: later /\
    In s (sidewalkCandidates db lat lon) /\
    (length (sidewalkCandidates db lat lon) <= 8)%nat /\
    (forall c, In c (sidewalkCandidates db lat lon) ->
       dist (sidewalk_starting_latitude s) (sidewalk_starting_longitude s)
            (sidewalk_ending_latitude s) (sidewalk_ending_longitude s)
            lat lon
       <= dist (sidewalk_starting_latitude c) (sidewalk_starting_longitude c)
               (sidewalk_ending_latitude c) (sidewalk_ending_longitude c)
               lat lon) /\
    (forall c, In c earlier ->
       dist (sidewalk_starting_latitude s) (sidewalk_starting_longitude s)
            (sidewalk_ending_latitude s) (sidewalk_ending_longitude s)
            lat lon
       < dist (sidewalk_starting_latitude c) (sidewalk_starting_longitude c)
              (sidewalk_ending_latitude c) (sidewalk_ending_longitude c)
              lat lon).
Proof.
  intros Hne.
  destruct (sortBy_head (candidateDistance dist lat lon) _ Hne)
    as (s & earlier & later & Hhd & Hsplit & Hmin & Hfirst).
  exists s, earlier, later. repeat split.
  - rewrite getClosestSidewalk_unfold.
    destruct (Underscore.sortBy _ _) as [|x xs]; cbn in Hhd |- *;
      [discriminate | congruence].
  - exact Hsplit.
  - rewrite Hsplit. apply in_elt.
  - rewrite sidewalkCandidates_length. apply Nat.le_min_l.
  - intros c Hc. exact (Hmin c Hc).
  - intros c Hc. exact (Hfirst c Hc).
Qed.

(** C2.  When the store yields no candidate, [getClosestSidewalk] returns
    the value [undefined] by an ordinary return: nothing is raised, and the
    value is no row, neither a default row nor a row of the other table. *)
Theorem getClosestSidewalk_no_candidates
    (dist : R -> R -> R -> R -> R -> R -> R)
    (db : list Sidewalk) (db2 : list Walkability) (lat lon : R) :
  sidewalkCandidates db lat lon = [] ->
  getClosestSidewalk dist db db2 lat lon = Return Undefined /\
  (forall e, getClosestSidewalk dist db db2 lat lon <> Throw e) /\
  (forall row, getClosestSidewalk dist db db2 lat lon
               <> Return (WalkspanRow row)) /\
  (forall row, getClosestSidewalk dist db db2 lat lon
               <> Return (WalkabilityRow row)).
Proof.
  intros Hnil. rewrite getClosestSidewalk_unfold, Hnil.
  repeat split; intros; discriminate.
Qed.

(** C8.  On every input the result of [getClosestSidewalk] is the head of
    the sorted Walkspan candidates: it does not depend on the
    Bronx_Walkability table, is never one of that table's rows, and the
    statement after the first [return] never runs (it would raise). *)
Theorem getClosestSidewalk_single_source
    (dist : R -> R -> R -> R -> R -> R -> R)
    (db : list Sidewalk) (db2 : list Walkability) (lat lon : R) :
  getClosestSidewalk dist db db2 lat lon =
    Return (first WalkspanRow
              (Underscore.sortBy (sidewalkCandidates db lat lon)
                 (candidateDistance dist lat lon))) /\
  (forall db2' : list Walkability,
     getClosestSidewalk dist db db2' lat lon =
     getClosestSidewalk dist db db2 lat lon) /\
  (forall row, getClosestSidewalk dist db db2 lat lon
               <> Return (WalkabilityRow row)) /\
  (forall e, getClosestSidewalk dist db db2 lat lon <> Throw e).
Proof.
  rewrite getClosestSidewalk_unfold. repeat split.
  - intros row. destruct (Underscore.sortBy _ _); discriminate.
  - intros e. discriminate.
Qed.

End DbFacts.

(** ** The range query *)

Section RangeFacts.
Import JsNumber Geocoder Db.

Lemma getSidewalksInRadius_unfold
    (db : list Sidewalk) (db2 : list Walkability) (lat lon range : R) :
  getSidewalksInRadius db db2 lat lon range =
  Return (WalkspanRows
            (filter
               (sidewalkInBox
                  (getBoundingBoxFromCoordinatesAndRange lat lon range))
               db)).
Proof. reflexivity. Qed.

Lemma InBox_unfold (lat lon range p q : R) :
  InBox (getBoundingBoxFromCoordinatesAndRange lat lon range) p q <->
  (lat - spec_deltaLat range <= p <= lat + spec_deltaLat range /\
   lon - spec_deltaLng lat range <= q <= lon + spec_deltaLng lat range).
Proof. unfold InBox. rewrite box_unfold. reflexivity. Qed.

(** A larger range gives a larger box. *)
Lemma InBox_monotone (lat lon r1 r2 p q : R) :
  Rabs lat < 90 ->
  r1 <= r2 ->
  InBox (getBoundingBoxFromCoordinatesAndRange lat lon r1) p q ->
  InBox (getBoundingBoxFromCoordinatesAndRange lat lon r2) p q.
Proof.
  intros Hlat Hr. rewrite !InBox_unfold.
  rewrite !spec_deltaLat_is_linear, !(spec_deltaLng_is_linear lat _ Hlat).
  pose proof (lng_factor_pos lat Hlat) as Hk.
  set (k := 1609.344 / 1000 / (110.572833 * cos (lat * PI / 180))) in *.
  intros [[H1 H2] [H3 H4]].
  assert (Hlng : r1 * k <= r2 * k) by nra.
  repeat split; lra.
Qed.

(** A box whose top is below its bottom contains no point. *)
Lemma InBox_inverted (box : BoundingBox) (p q : R) :
  topLat box < bottomLat box -> ~ InBox box p q.
Proof. unfold InBox. intros Hinv [[H1 H2] _]. lra. Qed.

Lemma filter_none {A : Type} (f : A -> bool) (l : list A) :
  (forall x, In x l -> f x = false) -> filter f l = [].
Proof.
  induction l as [|h t IH]; intros Hf; cbn.
  - reflexivity.
  - rewrite (Hf h) by now left. apply IH. intros x Hx. apply Hf. now right.
Qed.

Lemma sidewalkInBox_false (box : BoundingBox) (row : Sidewalk) :
  ~ InBox box (sidewalk_starting_latitude row)
              (sidewalk_starting_longitude row) ->
  ~ InBox box (sidewalk_ending_latitude row)
              (sidewalk_ending_longitude row) ->
  sidewalkInBox box row = false.
Proof.
  intros Hs He. apply not_true_is_false. rewrite sidewalkInBox_spec. tauto.
Qed.

(** C4.  [getSidewalksInRadius] returns exactly the stored rows one of whose
    two endpoints lies in the box derived from the query, all four bounds
    inclusive; a row with neither endpoint in the box is left out, wherever
    the rest of the segment runs. *)
Theorem getSidewalksInRadius_endpoint_in_box
    (db : list Sidewalk) (db2 : list Walkability) (lat lon range : R) :
  let box := getBoundingBoxFromCoordinatesAndRange lat lon range in
  exists rows : list Sidewalk,
    getSidewalksInRadius db db2 lat lon range = Return (WalkspanRows rows) /\
    (forall S : Sidewalk,
       In S rows <->
       In S db /\
       ((bottomLat box <= sidewalk_starting_latitude S <= topLat box /\
         leftLng box <= sidewalk_starting_longitude S <= rightLng box)
        \/
        (bottomLat box <= sidewalk_ending_latitude S <= topLat box /\
         leftLng box <= sidewalk_ending_longitude S <= rightLng box))) /\
    (forall S : Sidewalk,
       ~ InBox box (sidewalk_starting_latitude S)
                   (sidewalk_starting_longitude S) ->
       ~ InBox box (sidewalk_ending_latitude S)
                   (sidewalk_ending_longitude S) ->
       ~ In S rows).
Proof.
  intros box. eexists. split; [apply getSidewalksInRadius_unfold|].
  fold box. split.
  - intros S. rewrite filter_In, sidewalkInBox_spec. reflexivity.
  - intros S Hs He HS. apply filter_In in HS. destruct HS as [_ HS].
    rewrite (sidewalkInBox_false box S Hs He) in HS. discriminate.
Qed.

(** C5.  For a latitude strictly between -90 and 90 and ranges
    [0 < r1 < r2], every row returned for [r1] is returned for [r2] over
    the same store. *)
Theorem getSidewalksInRadius_monotone
    (db : list Sidewalk) (db2 : list Walkability) (lat lon r1 r2 : R) :
  Rabs lat < 90 ->
  0 < r1 ->
  r1 < r2 ->
  exists rows1 rows2 : list Sidewalk,
    getSidewalksInRadius db db2 lat lon r1 = Return (WalkspanRows rows1) /\
    getSidewalksInRadius db db2 lat lon r2 = Return (WalkspanRows rows2) /\
    incl rows1 rows2.
Proof.
  intros Hlat _ Hr.
  eexists. eexists.
  split; [apply getSidewalksInRadius_unfold|].
  split; [apply getSidewalksInRadius_unfold|].
  intros S HS. apply filter_In in HS. destruct HS as [Hdb HS].
  apply filter_In. split; [exact Hdb|].
  apply sidewalkInBox_spec in HS. apply sidewalkInBox_spec.
  assert (Hle : r1 <= r2) by lra.
  destruct HS as [HS|HS]; [left|right];
    exact (InBox_monotone lat lon r1 r2 _ _ Hlat Hle HS).
Qed.

End RangeFacts.

(** ** Scenarios on the sample store *)

Section Scenarios.
Import JsNumber Geocoder DistanceToLineSegment Db Sample.

Lemma nearRow_distance :
  candidateDistance distance queryLat queryLng nearRow = 0.00061.
Proof.
  unfold candidateDistance, distance, distanceToLineSegment,
    distanceSquaredToLineSegment, distanceSquaredToLineSegment2, js_div, ltb,
    nearRow, queryLat, queryLng.
  cbn -[Rplus Rminus Rmult Rdiv IZR].
  destruct (Req_dec_T _ 0) as [H|H]; [exfalso; lra|]. cbn.
  destruct (Rlt_dec _ 0) as [H1|H1]; [exfalso; lra|].
  destruct (Rlt_dec 1 _) as [H2|H2]; [exfalso; lra|].
  rewrite js_sqrt_nonneg by apply sum_squares_nonneg.
  match goal with
  | |- sqrt ?e = _ => replace e with (0.00061 * 0.00061) by lra
  end.
  apply sqrt_square. lra.
Qed.

Lemma pointRow_distance :
  candidateDistance distance queryLat queryLng pointRow = 0.00939.
Proof.
  unfold candidateDistance, distance, distanceToLineSegment.
  cbn [pointRow sidewalk_starting_latitude sidewalk_starting_longitude
       sidewalk_ending_latitude sidewalk_ending_longitude].
  rewrite distanceSquared_degenerate. cbn.
  rewrite js_sqrt_nonneg by apply sum_squares_nonneg.
  unfold queryLat, queryLng.
  match goal with
  | |- sqrt ?e = _ => replace e with (0.00939 * 0.00939) by lra
  end.
  apply sqrt_square. lra.
Qed.

(** The pre-filter orders the near row before the point row. *)
Lemma sample_candidates :
  sidewalkCandidates walkspan queryLat queryLng = [nearRow; pointRow].
Proof.
  unfold sidewalkCandidates, orderBy, walkspan. cbn [Sorting.sort Sorting.insert].
  assert (Hkey : leb
    (endpointKey queryLat queryLng
       (sidewalk_starting_latitude pointRow)
       (sidewalk_starting_longitude pointRow)
       (sidewalk_ending_latitude pointRow)
       (sidewalk_ending_longitude pointRow))
    (endpointKey queryLat queryLng
       (sidewalk_starting_latitude nearRow)
       (sidewalk_starting_longitude nearRow)
       (sidewalk_ending_latitude nearRow)
       (sidewalk_ending_longitude nearRow)) = false).
  { apply not_true_is_false. rewrite leb_spec.
    unfold endpointKey, queryLat, queryLng. cbn -[Rplus Rminus Rmult Rdiv IZR Rabs Rmin].
    unfold Rmin, Rabs.
    repeat (destruct (Rle_dec _ _)); repeat (destruct (Rcase_abs _)); lra. }
  rewrite Hkey. reflexivity.
Qed.

(** Section 8 scenario: the row nearest to (40.730610, -73.935242) is
    returned, with its scores 1, 1, 1, 1, 3, 3, 1. *)
Lemma sample_closest :
  getClosestSidewalk distance walkspan bronx queryLat queryLng =
  Return (WalkspanRow nearRow).
Proof.
  rewrite getClosestSidewalk_unfold, sample_candidates.
  unfold Underscore.sortBy.
  cbn [Underscore.rank Sorting.sort Sorting.insert].
  rewrite nearRow_distance, pointRow_distance.
  assert (Hp : Underscore.precedes
    {| Underscore.value := nearRow; Underscore.index := 0;
       Underscore.criteria := 0.00061 |}
    {| Underscore.value := pointRow; Underscore.index := 1;
       Underscore.criteria := 0.00939 |} = true).
  { apply precedes_spec. cbn. left. lra. }
  rewrite Hp. reflexivity.
Qed.

Lemma sample_box_lat :
  spec_deltaLat 1 = 1609.344 / 1000 / 110.574235.
Proof. unfold spec_deltaLat. lra. Qed.

Lemma sample_box_lng :
  1609.344 / 1000 / 110.572833 <= spec_deltaLng queryLat 1.
Proof.
  assert (Hlat : Rabs queryLat < 90).
  { unfold queryLat. rewrite Rabs_pos_eq; lra. }
  pose proof (cos_latRadian_pos queryLat Hlat) as Hcos.
  pose proof (COS_bound (queryLat * PI / 180)) as [_ Hone].
  unfold spec_deltaLng.
  replace (1 * 1609.344 / 1000) with (1609.344 / 1000) by lra.
  unfold Rdiv at 1 3. apply Rmult_le_compat_l; [lra|].
  apply Rinv_le_contravar; nra.
Qed.

(** Section 4.2: a sidewalk that runs through the query point but ends
    outside the box on both sides is not returned. *)
Lemma sample_range :
  getSidewalksInRadius walkspanWithCrossing bronx queryLat queryLng 1 =
  Return (WalkspanRows [pointRow; nearRow]).
Proof.
  rewrite getSidewalksInRadius_unfold.
  set (box := getBoundingBoxFromCoordinatesAndRange queryLat queryLng 1).
  pose proof sample_box_lat as Hdlat. pose proof sample_box_lng as Hdlng.
  assert (Hpoint : sidewalkInBox box pointRow = true).
  { apply sidewalkInBox_spec. left. apply InBox_unfold.
    cbn [pointRow sidewalk_starting_latitude sidewalk_starting_longitude].
    rewrite Hdlat. unfold queryLat, queryLng in *. repeat split; lra. }
  assert (Hnear : sidewalkInBox box nearRow = true).
  { apply sidewalkInBox_spec. left. apply InBox_unfold.
    cbn [nearRow sidewalk_starting_latitude sidewalk_starting_longitude].
    rewrite Hdlat. unfold queryLat, queryLng in *. repeat split; lra. }
  assert (Hcross : sidewalkInBox box crossingRow = false).
  { apply sidewalkInBox_false; unfold box; rewrite InBox_unfold;
      cbn [crossingRow sidewalk_starting_latitude sidewalk_starting_longitude
           sidewalk_ending_latitude sidewalk_ending_longitude];
      rewrite Hdlat; unfold queryLat; lra. }
  unfold walkspanWithCrossing. cbn [filter].
  rewrite Hpoint, Hnear, Hcross. reflexivity.
Qed.

End Scenarios.

(** ** The conditional theorems at the sample store *)

Section Instances.
Import JsNumber Geocoder DistanceToLineSegment Db Sample.

Lemma queryLat_in_range : Rabs queryLat < 90.
Proof. unfold queryLat. rewrite Rabs_pos_eq; lra. Qed.

Lemma getClosestSidewalk_nearest_candidate_witness :
  sidewalkCandidates walkspan queryLat queryLng <> [] /\
  exists s : Sidewalk,
    getClosestSidewalk distance walkspan bronx queryLat queryLng
      = Return (WalkspanRow s) /\
    In s (sidewalkCandidates walkspan queryLat queryLng) /\
    (forall c, In c (sidewalkCandidates walkspan queryLat queryLng) ->
       distance (sidewalk_starting_latitude s) (sidewalk_starting_longitude s)
                (sidewalk_ending_latitude s) (sidewalk_ending_longitude s)
                queryLat queryLng
       <= distance (sidewalk_starting_latitude c)
                   (sidewalk_starting_longitude c)
                   (sidewalk_ending_latitude c) (sidewalk_ending_longitude c)
                   queryLat queryLng).
Proof.
  assert (Hne : sidewalkCandidates walkspan queryLat queryLng <> []).
  { rewrite sidewalkCandidates_nil_iff. discriminate. }
  split; [exact Hne|].
  destruct (getClosestSidewalk_nearest_candidate
              distance walkspan bronx queryLat queryLng Hne)
    as (s & earlier & later & Hret & _ & Hin & _ & Hmin & _).
  exists s. repeat split; assumption.
Defined.

Lemma getClosestSidewalk_no_candidates_witness :
  sidewalkCandidates [] queryLat queryLng = [] /\
  getClosestSidewalk distance [] bronx queryLat queryLng = Return Undefined.
Proof.
  assert (Hnil : sidewalkCandidates [] queryLat queryLng = []) by reflexivity.
  split; [exact Hnil|].
  exact (proj1 (getClosestSidewalk_no_candidates
                  distance [] bronx queryLat queryLng Hnil)).
Defined.

Lemma distanceToLineSegment_degenerate_witness :
  sidewalk_ending_latitude pointRow = sidewalk_starting_latitude pointRow /\
  sidewalk_ending_longitude pointRow = sidewalk_starting_longitude pointRow /\
  candidateDistance distance queryLat queryLng pointRow =
  sqrt ((queryLat - 40.74) * (queryLat - 40.74)
        + (queryLng - -73.935242) * (queryLng - -73.935242)).
Proof.
  assert (Hlat : sidewalk_ending_latitude pointRow
                 = sidewalk_starting_latitude pointRow) by reflexivity.
  assert (Hlng : sidewalk_ending_longitude pointRow
                 = sidewalk_starting_longitude pointRow) by reflexivity.
  exact (conj Hlat (conj Hlng
    (proj2 (proj2 (distanceToLineSegment_degenerate 0 0 queryLat queryLng))
       pointRow Hlat Hlng))).
Defined.

Lemma getSidewalksInRadius_monotone_witness :
  Rabs queryLat < 90 /\ 0 < 0.25 /\ 0.25 < 1 /\
  exists rows1 rows2 : list Sidewalk,
    getSidewalksInRadius walkspan bronx queryLat queryLng 0.25
      = Return (WalkspanRows rows1) /\
    getSidewalksInRadius walkspan bronx queryLat queryLng 1
      = Return (WalkspanRows rows2) /\
    incl rows1 rows2.
Proof.
  assert (H1 : 0 < 0.25) by lra.
  assert (H2 : 0.25 < 1) by lra.
  exact (conj queryLat_in_range (conj H1 (conj H2
    (getSidewalksInRadius_monotone walkspan bronx queryLat queryLng 0.25 1
       queryLat_in_range H1 H2)))).
Defined.

End Instances.

(** * Further properties of the code *)

(** ** More on the bounding box *)

Section BoundingBoxMore.
Import Geocoder Db.

(** X1.  For a latitude strictly between -90 and 90 and a range that is not
    negative, the centre of the query lies in the box derived from it. *)
Theorem box_contains_centre (lat lon r : R) :
  Rabs lat < 90 ->
  0 <= r ->
  InBox (getBoundingBoxFromCoordinatesAndRange lat lon r) lat lon.
Proof.
  intros Hlat Hr. apply InBox_unfold.
  rewrite spec_deltaLat_is_linear, (spec_deltaLng_is_linear lat r Hlat).
  pose proof (lng_factor_pos lat Hlat) as Hk.
  repeat split; nra.
Qed.

Lemma box_contains_centre_witness :
  Rabs 40 < 90 /\ 0 <= 0.35 /\
  InBox (getBoundingBoxFromCoordinatesAndRange 40 (-74) 0.35) 40 (-74).
Proof.
  assert (Hlat : Rabs 40 < 90) by (rewrite Rabs_pos_eq; lra).
  assert (Hr : 0 <= 0.35) by lra.
  exact (conj Hlat (conj Hr (box_contains_centre 40 (-74) 0.35 Hlat Hr))).
Defined.

(** X3.  Mirroring the centre across the equator mirrors the box: the latitude
    bounds change sign and swap, the longitude bounds stay. *)
Theorem box_mirror_latitude (lat lon r : R) :
  let box := getBoundingBoxFromCoordinatesAndRange lat lon r in
  let mirrored := getBoundingBoxFromCoordinatesAndRange (- lat) lon r in
  topLat mirrored = - bottomLat box /\
  bottomLat mirrored = - topLat box /\
  leftLng mirrored = leftLng box /\
  rightLng mirrored = rightLng box.
Proof.
  intros box mirrored. subst box mirrored. rewrite !box_unfold.
  cbn [topLat bottomLat leftLng rightLng].
  assert (Hcos : spec_deltaLng (- lat) r = spec_deltaLng lat r).
  { unfold spec_deltaLng.
    replace (- lat * PI / 180) with (- (lat * PI / 180)) by lra.
    now rewrite cos_neg. }
  rewrite Hcos. repeat split; ring.
Qed.

End BoundingBoxMore.

(** ** More on the range query *)

Section RangeMore.
Import JsNumber Geocoder Db Notions.

Lemma endsAt_centre_in_box (lat lon r : R) (row : Sidewalk) :
  Rabs lat < 90 ->
  0 <= r ->
  endsAt lat lon row ->
  sidewalkInBox (getBoundingBoxFromCoordinatesAndRange lat lon r) row = true.
Proof.
  intros Hlat Hr Hends. apply sidewalkInBox_spec.
  assert (Hc : InBox (getBoundingBoxFromCoordinatesAndRange lat lon r)
                 lat lon).
  { apply InBox_unfold.
    rewrite spec_deltaLat_is_linear, (spec_deltaLng_is_linear lat r Hlat).
    pose proof (lng_factor_pos lat Hlat) as Hk.
    repeat split; nra. }
  destruct Hends as [[-> ->] | [-> ->]]; [left | right]; exact Hc.
Qed.

(** X5.  The range query reads the Walkspan table only: its result does not
    depend on the Bronx_Walkability table and is never a list of that
    table's rows. *)
Theorem getSidewalksInRadius_single_source
    (db : list Sidewalk) (db2 db2' : list Walkability) (lat lon r : R) :
  getSidewalksInRadius db db2' lat lon r = getSidewalksInRadius db db2 lat lon r
  /\ (forall rows, getSidewalksInRadius db db2 lat lon r
                   <> Return (WalkabilityRows rows))
  /\ (forall e, getSidewalksInRadius db db2 lat lon r <> Throw e).
Proof.
  rewrite !getSidewalksInRadius_unfold. repeat split; intros; discriminate.
Qed.

(** X6.  For a latitude strictly between -90 and 90 and a range that is not
    negative, every stored sidewalk that starts or ends exactly at the query
    point is returned. *)
Theorem getSidewalksInRadius_returns_rows_at_centre
    (db : list Sidewalk) (db2 : list Walkability) (lat lon r : R)
    (row : Sidewalk) :
  Rabs lat < 90 ->
  0 <= r ->
  In row db ->
  endsAt lat lon row ->
  exists rows,
    getSidewalksInRadius db db2 lat lon r = Return (WalkspanRows rows) /\
    In row rows.
Proof.
  intros Hlat Hr Hin Hends. eexists.
  split; [apply getSidewalksInRadius_unfold|].
  apply filter_In. split; [exact Hin|].
  now apply endsAt_centre_in_box.
Qed.

(** X7.  With range 0 the box is the query point itself: the rows returned are
    exactly the stored sidewalks that start or end at the query point. *)
Theorem getSidewalksInRadius_zero_range
    (db : list Sidewalk) (db2 : list Walkability) (lat lon : R) :
  Rabs lat < 90 ->
  exists rows,
    getSidewalksInRadius db db2 lat lon 0 = Return (WalkspanRows rows) /\
    forall row, In row rows <-> In row db /\ endsAt lat lon row.
Proof.
  intros Hlat. eexists. split; [apply getSidewalksInRadius_unfold|].
  intros row. rewrite filter_In, sidewalkInBox_spec, !InBox_unfold.
  rewrite spec_deltaLat_is_linear, (spec_deltaLng_is_linear lat 0 Hlat).
  unfold endsAt. rewrite !Rmult_0_l.
  split; (intros [Hin Hends]; split; [exact Hin|]).
  - destruct Hends as [[H1 H2]|[H1 H2]]; [left | right]; split; lra.
  - destruct Hends as [[-> ->]|[-> ->]]; [left | right]; repeat split; lra.
Qed.

(** X8.  The range query does not care which end of a sidewalk is stored as its
    start: over the table with every row reversed it returns the reversed
    rows of what it returns over the table. *)
Theorem getSidewalksInRadius_reversed
    (db : list Sidewalk) (db2 : list Walkability) (lat lon r : R) :
  exists rows,
    getSidewalksInRadius db db2 lat lon r = Return (WalkspanRows rows) /\
    getSidewalksInRadius (map reversed db) db2 lat lon r
      = Return (WalkspanRows (map reversed rows)).
Proof.
  eexists. split; [apply getSidewalksInRadius_unfold|].
  rewrite getSidewalksInRadius_unfold. do 2 f_equal.
  set (box := getBoundingBoxFromCoordinatesAndRange lat lon r).
  induction db as [|row rest IH]; cbn [map filter].
  - reflexivity.
  - assert (Hrev : sidewalkInBox box (reversed row) = sidewalkInBox box row).
    { unfold sidewalkInBox, reversed. cbn. apply orb_comm. }
    rewrite Hrev. destruct (sidewalkInBox box row); cbn [map]; now rewrite IH.
Qed.

End RangeMore.

Section RangeMoreInstances.
Import JsNumber Geocoder Db Notions Sample.

Lemma getSidewalksInRadius_returns_rows_at_centre_witness :
  Rabs 40.74 < 90 /\ 0 <= 0.25 /\ In pointRow walkspan /\
  endsAt 40.74 (-73.935242) pointRow /\
  exists rows,
    getSidewalksInRadius walkspan bronx 40.74 (-73.935242) 0.25
      = Return (WalkspanRows rows) /\
    In pointRow rows.
Proof.
  assert (H1 : Rabs 40.74 < 90) by (rewrite Rabs_pos_eq; lra).
  assert (H2 : 0 <= 0.25) by lra.
  assert (H3 : In pointRow walkspan) by (left; reflexivity).
  assert (H4 : endsAt 40.74 (-73.935242) pointRow)
    by (left; split; reflexivity).
  exact (conj H1 (conj H2 (conj H3 (conj H4
    (getSidewalksInRadius_returns_rows_at_centre
       walkspan bronx 40.74 (-73.935242) 0.25 pointRow H1 H2 H3 H4))))).
Defined.

Lemma getSidewalksInRadius_zero_range_witness :
  Rabs queryLat < 90 /\
  exists rows,
    getSidewalksInRadius walkspan bronx queryLat queryLng 0
      = Return (WalkspanRows rows) /\
    forall row, In row rows <-> In row walkspan /\ endsAt queryLat queryLng row.
Proof.
  exact (conj queryLat_in_range
    (getSidewalksInRadius_zero_range walkspan bronx queryLat queryLng
       queryLat_in_range)).
Defined.

End RangeMoreInstances.

(** ** More on the nearest-sidewalk query *)

Section NearestMore.
Import JsNumber Geocoder Db Notions.

Lemma key_before_total (lat lon : R) (x y : Sidewalk) :
  leb (sidewalkKey lat lon x) (sidewalkKey lat lon y) = false ->
  leb (sidewalkKey lat lon y) (sidewalkKey lat lon x) = true.
Proof.
  intros Hf. apply leb_spec.
  destruct (Rle_dec (sidewalkKey lat lon x) (sidewalkKey lat lon y)) as [Hle|Hn].
  - apply leb_spec in Hle. congruence.
  - lra.
Qed.

Lemma StronglySorted_app_le {A : Type} (R : A -> A -> Prop) (l1 l2 : list A) :
  StronglySorted R (l1 ++ l2) ->
  forall a b, In a l1 -> In b l2 -> R a b.
Proof.
  induction l1 as [|h t IH]; intros Hs a b Ha Hb; [contradiction|].
  cbn in Hs. apply StronglySorted_inv in Hs. destruct Hs as [Ht Hall].
  destruct Ha as [<- | Ha].
  - rewrite Forall_forall in Hall. apply Hall, in_or_app. now right.
  - now apply IH.
Qed.

Lemma orderBy_key_sorted (lat lon : R) (db : list Sidewalk) :
  StronglySorted (fun a b => sidewalkKey lat lon a <= sidewalkKey lat lon b)
    (orderBy (sidewalkKey lat lon) db).
Proof.
  apply Sorted_StronglySorted.
  - intros x y z Hxy Hyz. lra.
  - unfold orderBy.
    pose proof (sort_sorted
      (fun x y => leb (sidewalkKey lat lon x) (sidewalkKey lat lon y))
      (key_before_total lat lon) db) as Hs.
    induction Hs as [|e es Hes IH Hhd]; constructor.
    + exact IH.
    + destruct Hhd as [|e' es' Hee']; constructor. now apply leb_spec.
Qed.

Lemma sidewalkCandidates_as_orderBy (db : list Sidewalk) (lat lon : R) :
  sidewalkCandidates db lat lon = firstn 8 (orderBy (sidewalkKey lat lon) db).
Proof. reflexivity. Qed.

Lemma sidewalkKey_nonneg (lat lon : R) (row : Sidewalk) :
  0 <= sidewalkKey lat lon row.
Proof.
  unfold sidewalkKey, endpointKey.
  apply Rmin_glb; apply Rplus_le_le_0_compat; apply Rabs_pos.
Qed.

Lemma sidewalkKey_zero_iff (lat lon : R) (row : Sidewalk) :
  sidewalkKey lat lon row = 0 <-> endsAt lat lon row.
Proof.
  unfold sidewalkKey, endpointKey, endsAt.
  set (a := sidewalk_starting_latitude row - lat).
  set (b := sidewalk_starting_longitude row - lon).
  set (c := sidewalk_ending_latitude row - lat).
  set (d := sidewalk_ending_longitude row - lon).
  pose proof (Rabs_pos a) as Ha. pose proof (Rabs_pos b) as Hb.
  pose proof (Rabs_pos c) as Hc. pose proof (Rabs_pos d) as Hd.
  assert (Hz : forall x, Rabs x = 0 <-> x = 0).
  { intros x. split; [|intros ->; apply Rabs_R0].
    intros H0. destruct (Req_dec x 0) as [|Hne]; [assumption|].
    apply Rabs_no_R0 in Hne. contradiction. }
  split.
  - intros Hmin. unfold Rmin in Hmin.
    destruct (Rle_dec _ _); [left | right].
    + assert (Ha0 : Rabs a = 0) by lra. assert (Hb0 : Rabs b = 0) by lra.
      apply (proj1 (Hz a)) in Ha0. apply (proj1 (Hz b)) in Hb0.
      unfold a, b in *. split; lra.
    + assert (Hc0 : Rabs c = 0) by lra. assert (Hd0 : Rabs d = 0) by lra.
      apply (proj1 (Hz c)) in Hc0. apply (proj1 (Hz d)) in Hd0.
      unfold c, d in *. split; lra.
  - intros [[H1 H2] | [H1 H2]].
    + assert (Ha0 : Rabs a = 0) by (apply Hz; unfold a; lra).
      assert (Hb0 : Rabs b = 0) by (apply Hz; unfold b; lra).
      unfold Rmin. destruct (Rle_dec _ _); lra.
    + assert (Hc0 : Rabs c = 0) by (apply Hz; unfold c; lra).
      assert (Hd0 : Rabs d = 0) by (apply Hz; unfold d; lra).
      unfold Rmin. destruct (Rle_dec _ _); lra.
Qed.

Lemma first_sortBy_row
    (dist : R -> R -> R -> R -> R -> R -> R)
    (db : list Sidewalk) (db2 : list Walkability) (lat lon : R)
    (row : Sidewalk) :
  getClosestSidewalk dist db db2 lat lon = Return (WalkspanRow row) ->
  In row (sidewalkCandidates db lat lon).
Proof.
  rewrite getClosestSidewalk_unfold. intros Hret.
  pose proof (sortBy_permutation (candidateDistance dist lat lon)
                (sidewalkCandidates db lat lon)) as Hperm.
  destruct (Underscore.sortBy _ _) as [|x xs]; [discriminate|].
  cbn in Hret. injection Hret as ->.
  apply (Permutation_in _ Hperm). now left.
Qed.

(** X10.  [getClosestSidewalk] evaluates to [undefined] exactly when the
    Walkspan table is empty; whenever it returns a row, the row is one of
    the table's. *)
Theorem getClosestSidewalk_undefined_iff_empty
    (dist : R -> R -> R -> R -> R -> R -> R)
    (db : list Sidewalk) (db2 : list Walkability) (lat lon : R) :
  (getClosestSidewalk dist db db2 lat lon = Return Undefined <-> db = []) /\
  (forall row,
     getClosestSidewalk dist db db2 lat lon = Return (WalkspanRow row) ->
     In row db).
Proof.
  split.
  - split.
    + intros Hundef.
      destruct db as [|r rest]; [reflexivity|]. exfalso.
      assert (Hne : sidewalkCandidates (r :: rest) lat lon <> []).
      { rewrite sidewalkCandidates_nil_iff. discriminate. }
      destruct (sortBy_head (candidateDistance dist lat lon) _ Hne)
        as (v & _ & _ & Hhd & _).
      rewrite getClosestSidewalk_unfold in Hundef.
      destruct (Underscore.sortBy _ _) as [|x xs]; cbn in Hhd, Hundef;
        discriminate.
    + intros ->. reflexivity.
  - intros row Hret. apply (sidewalkCandidates_incl db lat lon).
    exact (first_sortBy_row dist db db2 lat lon row Hret).
Qed.

(** X11.  Over a non-empty table of at most eight rows the pre-filter drops
    nothing, and [getClosestSidewalk] returns a row whose distance (the
    imported function applied to the row's two ends and the query point) is
    the least over the whole table. *)
Theorem getClosestSidewalk_small_table_exact
    (dist : R -> R -> R -> R -> R -> R -> R)
    (db : list Sidewalk) (db2 : list Walkability) (lat lon : R) :
  db <> [] ->
  (length db <= 8)%nat ->
  exists s,
    getClosestSidewalk dist db db2 lat lon = Return (WalkspanRow s) /\
    In s db /\
    forall c, In c db ->
      dist (sidewalk_starting_latitude s) (sidewalk_starting_longitude s)
           (sidewalk_ending_latitude s) (sidewalk_ending_longitude s)
           lat lon
      <= dist (sidewalk_starting_latitude c) (sidewalk_starting_longitude c)
              (sidewalk_ending_latitude c) (sidewalk_ending_longitude c)
              lat lon.
Proof.
  intros Hne Hlen.
  assert (Hcne : sidewalkCandidates db lat lon <> []).
  { rewrite sidewalkCandidates_nil_iff. exact Hne. }
  destruct (sortBy_head (candidateDistance dist lat lon) _ Hcne)
    as (s & earlier & later & Hhd & Hsplit & Hmin & _).
  assert (Hret : getClosestSidewalk dist db db2 lat lon
                 = Return (WalkspanRow s)).
  { rewrite getClosestSidewalk_unfold.
    destruct (Underscore.sortBy _ _) as [|x xs]; cbn in Hhd |- *;
      [discriminate | congruence]. }
  exists s. split; [exact Hret|]. split.
  - apply (sidewalkCandidates_incl db lat lon).
    exact (first_sortBy_row dist db db2 lat lon s Hret).
  - intros c Hc.
    refine (Hmin c _).
    unfold sidewalkCandidates, orderBy.
    rewrite firstn_all2 by (rewrite length_sort; exact Hlen).
    now apply in_sort.
Qed.


End NearestMore.

Section NearestMoreInstances.
Import JsNumber Geocoder DistanceToLineSegment Db Notions Sample.

Lemma getClosestSidewalk_small_table_exact_witness :
  walkspan <> [] /\ (length walkspan <= 8)%nat /\
  exists s,
    getClosestSidewalk distance walkspan bronx queryLat queryLng
      = Return (WalkspanRow s) /\
    In s walkspan /\
    forall c, In c walkspan ->
      distance (sidewalk_starting_latitude s) (sidewalk_starting_longitude s)
               (sidewalk_ending_latitude s) (sidewalk_ending_longitude s)
               queryLat queryLng
      <= distance (sidewalk_starting_latitude c)
                  (sidewalk_starting_longitude c)
                  (sidewalk_ending_latitude c) (sidewalk_ending_longitude c)
                  queryLat queryLng.
Proof.
  assert (H1 : walkspan <> []) by discriminate.
  assert (H2 : (length walkspan <= 8)%nat) by (cbn; lia).
  exact (conj H1 (conj H2
    (getClosestSidewalk_small_table_exact
       distance walkspan bronx queryLat queryLng H1 H2))).
Defined.

End NearestMoreInstances.

(** ** The distance function at the ends of a segment *)

Section DistanceEnds.
Import JsNumber DistanceToLineSegment.

Lemma distance_nonneg (lx1 ly1 lx2 ly2 px py : R) :
  0 <= distance lx1 ly1 lx2 ly2 px py.
Proof.
  unfold distance.
  destruct (distanceToLineSegment_total lx1 ly1 lx2 ly2 px py)
    as (d & -> & Hd).
  exact Hd.
Qed.

Lemma distance_from_squared (lx1 ly1 lx2 ly2 px py : R) :
  distanceSquaredToLineSegment lx1 ly1 lx2 ly2 px py = Some 0 ->
  distance lx1 ly1 lx2 ly2 px py = 0.
Proof.
  intros Hsq. unfold distance, distanceToLineSegment. rewrite Hsq. cbn.
  rewrite js_sqrt_nonneg by lra. apply sqrt_0.
Qed.

Lemma distance_at_start (a b c d : R) : distance a b c d a b = 0.
Proof.
  apply distance_from_squared.
  unfold distanceSquaredToLineSegment, distanceSquaredToLineSegment2,
    js_div, ltb.
  destruct (Req_dec_T _ 0) as [Hz|Hnz]; cbn.
  - f_equal. ring.
  - replace ((a - a) * (c - a) + (b - b) * (d - b)) with 0 by ring.
    unfold Rdiv. rewrite Rmult_0_l.
    destruct (Rlt_dec 0 0) as [Hlt|_]; [lra|].
    destruct (Rlt_dec 1 0) as [Hlt|_]; [lra|].
    f_equal. ring.
Qed.

Lemma distance_at_end (a b c d : R) : distance a b c d c d = 0.
Proof.
  apply distance_from_squared.
  unfold distanceSquaredToLineSegment, distanceSquaredToLineSegment2,
    js_div, ltb.
  destruct (Req_dec_T _ 0) as [Hz|Hnz]; cbn.
  - f_equal. etransitivity; [|exact Hz]. ring.
  - unfold Rdiv. rewrite Rinv_r by exact Hnz.
    destruct (Rlt_dec 1 0) as [Hlt|_]; [lra|].
    destruct (Rlt_dec 1 1) as [Hlt|_]; [lra|].
    f_equal. ring.
Qed.

End DistanceEnds.

(** ** The nearest-sidewalk query and the ends of sidewalks *)

Section NearestAtEnds.
Import JsNumber Geocoder Db Notions.

Lemma orderBy_head_least (lat lon : R) (db : list Sidewalk) (row : Sidewalk) :
  In row db ->
  exists h t,
    orderBy (sidewalkKey lat lon) db = h :: t /\
    sidewalkKey lat lon h <= sidewalkKey lat lon row.
Proof.
  intros Hin.
  pose proof (orderBy_key_sorted lat lon db) as Hsorted.
  assert (Hrow : In row (orderBy (sidewalkKey lat lon) db))
    by (unfold orderBy; now apply in_sort).
  destruct (orderBy (sidewalkKey lat lon) db) as [|h t]; [contradiction|].
  exists h, t. split; [reflexivity|].
  apply StronglySorted_inv in Hsorted. destruct Hsorted as [_ Hall].
  destruct Hrow as [<- | Hrow]; [lra|].
  rewrite Forall_forall in Hall. now apply Hall.
Qed.

(** X13.  When the query point is an end of some stored sidewalk, and the
    imported distance is never negative and is zero from a segment to each
    of its own ends, [getClosestSidewalk] returns a sidewalk at distance
    zero. *)
Theorem getClosestSidewalk_at_sidewalk_end
    (dist : R -> R -> R -> R -> R -> R -> R)
    (db : list Sidewalk) (db2 : list Walkability) (lat lon : R)
    (row : Sidewalk) :
  (forall a b c d p q, 0 <= dist a b c d p q) ->
  (forall a b c d, dist a b c d a b = 0) ->
  (forall a b c d, dist a b c d c d = 0) ->
  In row db ->
  endsAt lat lon row ->
  exists s,
    getClosestSidewalk dist db db2 lat lon = Return (WalkspanRow s) /\
    candidateDistance dist lat lon s = 0.
Proof.
  intros Hnonneg Hstart Hend Hin Hends.
  destruct (orderBy_head_least lat lon db row Hin) as (h & t & Hsort & Hkey).
  assert (Hh : In h (sidewalkCandidates db lat lon)).
  { rewrite sidewalkCandidates_as_orderBy, Hsort. now left. }
  assert (Hhends : endsAt lat lon h).
  { apply sidewalkKey_zero_iff. apply sidewalkKey_zero_iff in Hends.
    pose proof (sidewalkKey_nonneg lat lon h). lra. }
  assert (Hhd : candidateDistance dist lat lon h = 0).
  { unfold candidateDistance.
    destruct Hhends as [[-> ->] | [-> ->]]; [apply Hstart | apply Hend]. }
  assert (Hne : sidewalkCandidates db lat lon <> []).
  { intros Hnil. rewrite Hnil in Hh. contradiction. }
  destruct (sortBy_head (candidateDistance dist lat lon) _ Hne)
    as (s & earlier & later & Hhead & _ & Hmin & _).
  exists s. split.
  - rewrite getClosestSidewalk_unfold.
    destruct (Underscore.sortBy _ _) as [|x xs]; cbn in Hhead |- *;
      [discriminate | congruence].
  - specialize (Hmin h Hh). rewrite Hhd in Hmin.
    pose proof (Hnonneg
      (sidewalk_starting_latitude s) (sidewalk_starting_longitude s)
      (sidewalk_ending_latitude s) (sidewalk_ending_longitude s) lat lon)
      as Hs.
    unfold candidateDistance in *. lra.
Qed.

End NearestAtEnds.

Section NearestAtEndsInstances.
Import JsNumber Geocoder DistanceToLineSegment Db Notions Sample Crowded.

Lemma getClosestSidewalk_at_sidewalk_end_witness :
  (forall a b c d p q, 0 <= distance a b c d p q) /\
  (forall a b c d, distance a b c d a b = 0) /\
  (forall a b c d, distance a b c d c d = 0) /\
  In pointRow walkspan /\
  endsAt 40.74 (-73.935242) pointRow /\
  exists s,
    getClosestSidewalk distance walkspan bronx 40.74 (-73.935242)
      = Return (WalkspanRow s) /\
    candidateDistance distance 40.74 (-73.935242) s = 0.
Proof.
  assert (H4 : In pointRow walkspan) by (left; reflexivity).
  assert (H5 : endsAt 40.74 (-73.935242) pointRow)
    by (left; split; reflexivity).
  exact (conj distance_nonneg (conj distance_at_start (conj distance_at_end
    (conj H4 (conj H5
      (getClosestSidewalk_at_sidewalk_end distance walkspan bronx
         40.74 (-73.935242) pointRow
         distance_nonneg distance_at_start distance_at_end H4 H5)))))).
Defined.

Lemma decoyRow_distance :
  candidateDistance distance queryLat queryLng decoyRow = 0.00099.
Proof.
  unfold candidateDistance, distance, distanceToLineSegment.
  cbn [decoyRow sidewalk_starting_latitude sidewalk_starting_longitude
       sidewalk_ending_latitude sidewalk_ending_longitude].
  rewrite distanceSquared_degenerate. cbn.
  rewrite js_sqrt_nonneg by apply sum_squares_nonneg.
  unfold queryLat, queryLng.
  match goal with
  | |- sqrt ?e = _ => replace e with (0.00099 * 0.00099) by lra
  end.
  apply sqrt_square. lra.
Qed.

Lemma crossingRow_distance :
  candidateDistance distance queryLat queryLng crossingRow = 0.
Proof.
  unfold candidateDistance. apply distance_from_squared.
  unfold distanceSquaredToLineSegment, distanceSquaredToLineSegment2,
    js_div, ltb, crossingRow, queryLat, queryLng.
  cbn -[Rplus Rminus Rmult Rdiv IZR].
  destruct (Req_dec_T _ 0) as [H|H]; [exfalso; lra|]. cbn.
  destruct (Rlt_dec _ 0) as [H1|H1]; [exfalso; lra|].
  destruct (Rlt_dec 1 _) as [H2|H2]; [exfalso; lra|].
  f_equal. lra.
Qed.

Lemma crowded_candidates :
  sidewalkCandidates table queryLat queryLng = repeat decoyRow 8.
Proof.
  rewrite sidewalkCandidates_as_orderBy. unfold orderBy, table.
  assert (Hkd : sidewalkKey queryLat queryLng decoyRow = 0.00099).
  { unfold sidewalkKey, endpointKey, decoyRow, queryLat, queryLng.
    cbn -[Rplus Rminus Rmult Rdiv IZR Rabs Rmin].
    unfold Rmin, Rabs.
    repeat (destruct (Rle_dec _ _)); repeat (destruct (Rcase_abs _)); lra. }
  assert (Hkc : sidewalkKey queryLat queryLng crossingRow = 0.02939).
  { unfold sidewalkKey, endpointKey, crossingRow, queryLat, queryLng.
    cbn -[Rplus Rminus Rmult Rdiv IZR Rabs Rmin].
    unfold Rmin, Rabs.
    repeat (destruct (Rle_dec _ _)); repeat (destruct (Rcase_abs _)); lra. }
  assert (Hdd : leb (sidewalkKey queryLat queryLng decoyRow)
                    (sidewalkKey queryLat queryLng decoyRow) = true)
    by (apply leb_spec; lra).
  assert (Hdc : leb (sidewalkKey queryLat queryLng decoyRow)
                    (sidewalkKey queryLat queryLng crossingRow) = true)
    by (apply leb_spec; rewrite Hkd, Hkc; lra).
  cbn [repeat app Sorting.sort Sorting.insert].
  repeat (first [rewrite Hdc | rewrite Hdd]; cbn [Sorting.insert]).
  reflexivity.
Qed.

(** X14.  The pre-filter can discard the nearest sidewalk.  In a table of eight
    short sidewalks next to the query point followed by a long sidewalk
    that passes through the query point, the long one has both ends far
    away, is not among the eight candidates, and [getClosestSidewalk]
    returns a row that is strictly farther than it. *)
Theorem getClosestSidewalk_can_miss_nearest :
  exists (db : list Sidewalk) (lat lon : R) (s nearer : Sidewalk),
    getClosestSidewalk distance db [] lat lon = Return (WalkspanRow s) /\
    In nearer db /\
    candidateDistance distance lat lon nearer
    < candidateDistance distance lat lon s.
Proof.
  exists table, queryLat, queryLng, decoyRow, crossingRow.
  split; [|split].
  - assert (Hne : sidewalkCandidates table queryLat queryLng <> [])
      by (rewrite crowded_candidates; discriminate).
    destruct (sortBy_head (candidateDistance distance queryLat queryLng)
                _ Hne) as (s & earlier & later & Hhead & Hsplit & _ & _).
    assert (Hs : s = decoyRow).
    { apply (repeat_spec 8 decoyRow s). rewrite <- crowded_candidates.
      rewrite Hsplit. apply in_elt. }
    rewrite getClosestSidewalk_unfold.
    destruct (Underscore.sortBy _ _) as [|x xs]; cbn in Hhead |- *;
      [discriminate | congruence].
  - unfold table. apply in_or_app. right. now left.
  - rewrite crossingRow_distance, decoyRow_distance. lra.
Qed.

End NearestAtEndsInstances.

(** ** Strings: splitting and joining *)

Section JsStringFacts.
Import JsString.
Local Open Scope string_scope.

Lemma split_not_nil (c : Ascii.ascii) (s : string) : split c s <> [].
Proof.
  induction s as [|a rest IH]; cbn.
  - discriminate.
  - destruct (split c rest) as [|piece pieces]; [discriminate|].
    destruct (Ascii.eqb a c); discriminate.
Qed.

(** Splitting on a character and joining with nothing in between removes
    the character. *)
Lemma join_split_without (c : Ascii.ascii) (s : string) :
  join "" (split c s) = without c s.
Proof.
  induction s as [|a rest IH]; cbn [split without].
  - reflexivity.
  - pose proof (split_not_nil c rest) as Hne.
    destruct (split c rest) as [|piece pieces]; [contradiction|].
    destruct (Ascii.eqb a c).
    + exact IH.
    + rewrite <- IH. cbn [join]. destruct pieces; reflexivity.
Qed.

(** Splitting on a character and joining with the same character gives
    the string back. *)
Lemma join_split_same (c : Ascii.ascii) (s : string) :
  join (String c "") (split c s) = s.
Proof.
  induction s as [|a rest IH]; cbn [split].
  - reflexivity.
  - pose proof (split_not_nil c rest) as Hne.
    destruct (split c rest) as [|piece pieces]; [contradiction|].
    destruct (Ascii.eqb a c) eqn:Hac.
    + apply Ascii.eqb_eq in Hac. subst a.
      change (join (String c "") ("" :: piece :: pieces))
        with ("" ++ String c "" ++ join (String c "") (piece :: pieces)).
      rewrite IH. reflexivity.
    + rewrite <- IH. cbn [join]. destruct pieces; reflexivity.
Qed.

Lemma without_app (c : Ascii.ascii) (s t : string) :
  without c (s ++ t) = without c s ++ without c t.
Proof.
  induction s as [|a rest IH]; cbn.
  - reflexivity.
  - destruct (Ascii.eqb a c); cbn; now rewrite IH.
Qed.

Lemma squeezed_app (s t : string) :
  squeezed (s ++ t) = squeezed s ++ squeezed t.
Proof. unfold squeezed. now rewrite !without_app. Qed.

Lemma append_assoc (s t u : string) : (s ++ t) ++ u = s ++ (t ++ u).
Proof.
  induction s as [|a rest IH]; cbn; [reflexivity | now rewrite IH].
Qed.

End JsStringFacts.

(** ** src/lib/overpass.js: the query text *)

Section OverpassFacts.
Import JsString Geocoder Overpass.
Local Open Scope string_scope.

(** X15.  The text sent to Overpass is [node[TAG](S,W,N,E);out 20;] on one line,
    where TAG is the tag and S, W, N, E are the bottom, left, top and right
    bounds of the box derived from the query, each with its spaces and
    line breaks removed. *)
Theorem overpass_query_text
    (numberToString : R -> string) (tag : string) (lat lon range : R) :
  let box := getBoundingBoxFromCoordinatesAndRange lat lon range in
  query numberToString tag lat lon range =
  "node[" ++ squeezed tag ++ "]("
  ++ squeezed (numberToString (bottomLat box)) ++ ","
  ++ squeezed (numberToString (leftLng box)) ++ ","
  ++ squeezed (numberToString (topLat box)) ++ ","
  ++ squeezed (numberToString (rightLng box)) ++ ");out 20;".
Proof.
  intros box. unfold query. fold box.
  rewrite !join_split_without.
  change (without newline (without space ?s)) with (squeezed s).
  rewrite !squeezed_app.
  set (b := squeezed (numberToString (bottomLat box))).
  set (l := squeezed (numberToString (leftLng box))).
  set (t := squeezed (numberToString (topLat box))).
  set (r := squeezed (numberToString (rightLng box))).
  set (g := squeezed tag).
  cbn -[append].
  rewrite !append_assoc. reflexivity.
Qed.

End OverpassFacts.

(** ** src/lib/essentialsHelper.js *)

Section EssentialsFacts.
Import Overpass EssentialsHelper.
Variable numberToString : R -> string.
Variable queryOverpass : string -> Promise.Promise Response.

Lemma getLifestyleEssentials_fulfilled (lat lon range : R)
    (food transit interest comfort : Response) :
  queryOverpassForTags numberToString queryOverpass "amenity=restaurant"
    lat lon range = Some food ->
  queryOverpassForTags numberToString queryOverpass "public_transport"
    lat lon range = Some transit ->
  queryOverpassForTags numberToString queryOverpass "tourism"
    lat lon range = Some interest ->
  queryOverpassForTags numberToString queryOverpass "leisure"
    lat lon range = Some comfort ->
  getLifestyleEssentials numberToString queryOverpass lat lon range =
  Some (map (essentialOf "food") (features food)
        ++ map (essentialOf "public transit") (features transit)
        ++ map (essentialOf "interest") (features interest)
        ++ map (essentialOf "comfort") (features comfort)).
Proof.
  unfold getLifestyleEssentials. intros -> -> -> ->. cbn.
  now rewrite <- !app_assoc.
Qed.

(** X16.  Over answers that are feature collections whose every feature
    carries [properties.tags] and [geometry.coordinates] (the type
    [Response]), the essentials are all or nothing: the result is rejected
    exactly when at least one of the four Overpass queries is rejected. *)
Theorem getLifestyleEssentials_all_or_nothing (lat lon range : R) :
  getLifestyleEssentials numberToString queryOverpass lat lon range = None
  <->
  (queryOverpassForTags numberToString queryOverpass "amenity=restaurant"
    lat lon range = None \/
   queryOverpassForTags numberToString queryOverpass "public_transport"
    lat lon range = None \/
   queryOverpassForTags numberToString queryOverpass "tourism"
    lat lon range = None \/
   queryOverpassForTags numberToString queryOverpass "leisure"
    lat lon range = None).
Proof.
  unfold getLifestyleEssentials.
  destruct (queryOverpassForTags _ _ "amenity=restaurant" _ _ _);
  destruct (queryOverpassForTags _ _ "public_transport" _ _ _);
  destruct (queryOverpassForTags _ _ "tourism" _ _ _);
  destruct (queryOverpassForTags _ _ "leisure" _ _ _);
  cbn; split; intros H; try discriminate; try tauto;
  repeat (destruct H as [H|H]; try discriminate).
Qed.

Lemma categories_of_map (category : string) (l : list Feature) :
  map category_general (map (essentialOf category) l)
  = repeat category (length l).
Proof.
  induction l as [|f rest IH]; cbn; [reflexivity | now rewrite IH].
Qed.

(** X17.  When the four queries are answered, nothing is dropped or merged: the
    essentials are as many as the features of the four answers together,
    and they come grouped by category in the order food, public transit,
    interest, comfort. *)
Theorem getLifestyleEssentials_grouped (lat lon range : R)
    (food transit interest comfort : Response) :
  queryOverpassForTags numberToString queryOverpass "amenity=restaurant"
    lat lon range = Some food ->
  queryOverpassForTags numberToString queryOverpass "public_transport"
    lat lon range = Some transit ->
  queryOverpassForTags numberToString queryOverpass "tourism"
    lat lon range = Some interest ->
  queryOverpassForTags numberToString queryOverpass "leisure"
    lat lon range = Some comfort ->
  exists essentials,
    getLifestyleEssentials numberToString queryOverpass lat lon range
      = Some essentials /\
    length essentials =
      (length (features food) + length (features transit)
       + length (features interest) + length (features comfort))%nat /\
    map category_general essentials =
      repeat "food"%string (length (features food))
      ++ repeat "public transit"%string (length (features transit))
      ++ repeat "interest"%string (length (features interest))
      ++ repeat "comfort"%string (length (features comfort)).
Proof.
  intros H1 H2 H3 H4. eexists.
  split; [exact (getLifestyleEssentials_fulfilled _ _ _ _ _ _ _ H1 H2 H3 H4)|].
  split.
  - rewrite !length_app, !length_map. lia.
  - rewrite !map_app, !categories_of_map. reflexivity.
Qed.

(** X18.  Coordinates arrive as [longitude, latitude]: a feature whose
    coordinates start with [lng] and [lat], returned for any of the four
    tags, appears among the essentials under its name with latitude [lat]
    and longitude [lng]. *)
Theorem getLifestyleEssentials_coordinates (lat lon range : R)
    (food transit interest comfort : Response)
    (feature : Feature) (lng lat' : R) (others : list R) :
  queryOverpassForTags numberToString queryOverpass "amenity=restaurant"
    lat lon range = Some food ->
  queryOverpassForTags numberToString queryOverpass "public_transport"
    lat lon range = Some transit ->
  queryOverpassForTags numberToString queryOverpass "tourism"
    lat lon range = Some interest ->
  queryOverpassForTags numberToString queryOverpass "leisure"
    lat lon range = Some comfort ->
  In feature (features food ++ features transit
              ++ features interest ++ features comfort) ->
  coordinates feature = lng :: lat' :: others ->
  exists essentials essential,
    getLifestyleEssentials numberToString queryOverpass lat lon range
      = Some essentials /\
    In essential essentials /\
    name essential = tags_name feature /\
    latitude essential = Some lat' /\
    longitude essential = Some lng.
Proof.
  intros H1 H2 H3 H4 Hin Hcoord. eexists.
  assert (Hshape : forall category,
    name (essentialOf category feature) = tags_name feature /\
    latitude (essentialOf category feature) = Some lat' /\
    longitude (essentialOf category feature) = Some lng).
  { intros category. unfold essentialOf. cbn. rewrite Hcoord. auto. }
  rewrite !in_app_iff in Hin.
  destruct Hin as [Hin | [Hin | [Hin | Hin]]];
    [exists (essentialOf "food" feature)
    | exists (essentialOf "public transit" feature)
    | exists (essentialOf "interest" feature)
    | exists (essentialOf "comfort" feature)];
    (split;
     [exact (getLifestyleEssentials_fulfilled _ _ _ _ _ _ _ H1 H2 H3 H4)|]);
    (split; [|apply Hshape]);
    rewrite !in_app_iff;
    [left | right; left | right; right; left | right; right; right];
    now apply in_map.
Qed.

End EssentialsFacts.

(** ** src/lib/handlebarsHelper.js: the categories of the essentials widget *)

Section CategoriesFacts.
Import Overpass EssentialsHelper HandlebarsHelper.

Lemma setAdd_idempotent (set : list string) (x : string) :
  setAdd (setAdd set x) x = setAdd set x.
Proof.
  unfold setAdd. destruct (existsb (String.eqb x) set) eqn:Hx.
  - now rewrite Hx.
  - rewrite existsb_app, Hx. cbn [existsb orb].
    now rewrite String.eqb_refl.
Qed.

Lemma fold_setAdd_repeat (set : list string) (x : string) (n : nat) :
  fold_left setAdd (repeat x n) set =
  match n with
  | O => set
  | S _ => setAdd set x
  end.
Proof.
  destruct n as [|n]; [reflexivity|]. cbn [repeat fold_left].
  induction n as [|n IH]; cbn [repeat fold_left].
  - reflexivity.
  - rewrite setAdd_idempotent. exact IH.
Qed.

(** X19.  The essentials widget lists each category once, in the order food,
    public transit, interest, comfort, and lists a category exactly when
    the query behind it returned at least one feature. *)
Theorem essentialsContext_categories
    (numberToString : R -> string)
    (queryOverpass : string -> Promise.Promise Response)
    (lat lon range wlat wlon wrange : R)
    (food transit interest comfort : Response) :
  queryOverpassForTags numberToString queryOverpass "amenity=restaurant"
    lat lon range = Some food ->
  queryOverpassForTags numberToString queryOverpass "public_transport"
    lat lon range = Some transit ->
  queryOverpassForTags numberToString queryOverpass "tourism"
    lat lon range = Some interest ->
  queryOverpassForTags numberToString queryOverpass "leisure"
    lat lon range = Some comfort ->
  exists essentials,
    getLifestyleEssentials numberToString queryOverpass lat lon range
      = Some essentials /\
    categories (essentialsContext wlat wlon wrange essentials) =
      listed (length (features food)) "food"
      ++ listed (length (features transit)) "public transit"
      ++ listed (length (features interest)) "interest"
      ++ listed (length (features comfort)) "comfort".
Proof.
  intros H1 H2 H3 H4.
  eexists.
  split; [exact (getLifestyleEssentials_fulfilled numberToString queryOverpass
                   lat lon range food transit interest comfort H1 H2 H3 H4)|].
  unfold essentialsContext. cbn [categories]. unfold newSet.
  rewrite !map_app, !categories_of_map, !fold_left_app, !fold_setAdd_repeat.
  destruct (length (features food)), (length (features transit)),
    (length (features interest)), (length (features comfort));
    reflexivity.
Qed.

End CategoriesFacts.

(** ** The essentials route: fetched area and shown area *)

Section EssentialsRouteFacts.
Import Geocoder Db Overpass EssentialsHelper HandlebarsHelper EssentialsRoute.

(** X20.  The essentials handlers fetch for one and a half times the range they
    show: when the essentials are fetched, the context of the widget holds
    exactly the fetched list, and, for a latitude strictly between -90 and
    90 and a range that is not negative, every point of the box the widget
    shows lies in the box the four Overpass queries were made for. *)
Theorem essentials_widget_box_within_fetched
    (numberToString : R -> string)
    (queryOverpass : string -> Promise.Promise Response)
    (lat lon range : R) (context : EssentialsContext) :
  Rabs lat < 90 ->
  0 <= range ->
  widgetContext numberToString queryOverpass lat lon range = Some context ->
  getLifestyleEssentials numberToString queryOverpass lat lon (range * 1.5)
    = Some (essentialsList context) /\
  essentials_box context = getBoundingBoxFromCoordinatesAndRange lat lon range
  /\
  forall p q,
    InBox (essentials_box context) p q ->
    InBox (getBoundingBoxFromCoordinatesAndRange lat lon (range * 1.5)) p q.
Proof.
  intros Hlat Hrange Hctx.
  unfold widgetContext, lifestyleEssentials, Promise.then_ in Hctx.
  destruct (getLifestyleEssentials _ _ lat lon (range * 1.5)) as [ess|];
    [|discriminate].
  injection Hctx as <-. cbn [essentialsList essentials_box essentialsContext].
  split; [reflexivity|]. split; [reflexivity|].
  intros p q. apply InBox_monotone; [exact Hlat | lra].
Qed.

End EssentialsRouteFacts.

(** ** src/route/score.js: the answer of the score handlers *)

Section ScoreRouteFacts.
Import Geocoder Db HandlebarsHelper ScoreRoute.
Variable dist : R -> R -> R -> R -> R -> R -> R.
Variable scoreTemplate : ScoreContext -> string.

(** X21.  Without the widget, the handler reads the seven scores off the result
    of [getClosestSidewalk]: over an empty Walkspan table that result is
    undefined and the handler raises a TypeError instead of answering, and
    this is the only case in which it does not answer. *)
Theorem respond_json_fails_iff_empty_table
    (db : list Sidewalk) (db2 : list Walkability) (lat lon range : R) :
  (respond dist scoreTemplate db db2 false lat lon range = Raise TypeError
   <-> db = []) /\
  (db <> [] ->
   exists scores,
     respond dist scoreTemplate db db2 false lat lon range
     = Respond 200 (Json scores)).
Proof.
  unfold respond. rewrite getClosestSidewalk_unfold. cbn [call].
  destruct db as [|r rest].
  - cbn. split; [split; reflexivity | congruence].
  - assert (Hne : sidewalkCandidates (r :: rest) lat lon <> []).
    { rewrite sidewalkCandidates_nil_iff. discriminate. }
    destruct (sortBy_head (candidateDistance dist lat lon) _ Hne)
      as (v & _ & _ & Hhd & _).
    destruct (Underscore.sortBy _ _) as [|x xs]; [discriminate|].
    cbn. split; [split; discriminate | intros _; eexists; reflexivity].
Qed.

(** X22.  Without the widget and over a non-empty table, the handler answers 200
    with the seven scores of one row of the table, a candidate of the
    pre-filter whose distance (the imported function applied to its two ends
    and the request's point) is least among the candidates, and repeats the
    request's coordinates. *)
Theorem respond_json_scores
    (db : list Sidewalk) (db2 : list Walkability) (lat lon range : R) :
  db <> [] ->
  exists s,
    In s db /\
    In s (sidewalkCandidates db lat lon) /\
    (forall c, In c (sidewalkCandidates db lat lon) ->
       dist (sidewalk_starting_latitude s) (sidewalk_starting_longitude s)
            (sidewalk_ending_latitude s) (sidewalk_ending_longitude s)
            lat lon
       <= dist (sidewalk_starting_latitude c) (sidewalk_starting_longitude c)
               (sidewalk_ending_latitude c) (sidewalk_ending_longitude c)
               lat lon)
    /\
    respond dist scoreTemplate db db2 false lat lon range =
    Respond 200 (Json
      {| json_natural_beauty_score := Some (natural_beauty_score s);
         json_manmade_beauty_score := Some (manmade_beauty_score s);
         json_comfort_score := Some (comfort_score s);
         json_interest_score := Some (interest_score s);
         json_safety_score := Some (safety_score s);
         json_access_score := Some (access_score s);
         json_amenities_score := Some (amenities_score s);
         json_latitude := lat;
         json_longitude := lon |}).
Proof.
  intros Hdb.
  assert (Hne : sidewalkCandidates db lat lon <> []).
  { rewrite sidewalkCandidates_nil_iff. exact Hdb. }
  destruct (sortBy_head (candidateDistance dist lat lon) _ Hne)
    as (s & earlier & later & Hhd & Hsplit & Hmin & _).
  assert (Hcand : In s (sidewalkCandidates db lat lon))
    by (rewrite Hsplit; apply in_elt).
  exists s. split; [|split; [|split]].
  - exact (sidewalkCandidates_incl db lat lon s Hcand).
  - exact Hcand.
  - intros c Hc. exact (Hmin c Hc).
  - unfold respond. rewrite getClosestSidewalk_unfold. cbn [call].
    destruct (Underscore.sortBy _ _) as [|x xs]; [discriminate|].
    cbn in Hhd. injection Hhd as ->. reflexivity.
Qed.

(** X23.  With the widget, the handler always answers 200, also over an empty
    table.  The template is given the box of the request, the result of
    [getClosestSidewalk] as it is, and sidewalks that all are rows of the
    table with an end inside that same box. *)
Theorem respond_widget_context
    (db : list Sidewalk) (db2 : list Walkability) (lat lon range : R) :
  exists (closest : Value) (rows : list Sidewalk),
    respond dist scoreTemplate db db2 true lat lon range =
    Respond 200 (Html (scoreTemplate
      {| score_box := getBoundingBoxFromCoordinatesAndRange lat lon range;
         score_latitude := lat;
         score_longitude := lon;
         closestSidewalk := closest;
         sidewalksInRadius := WalkspanRows rows |})) /\
    getClosestSidewalk dist db db2 lat lon = Return closest /\
    (forall row, In row rows ->
       In row db /\
       (InBox (getBoundingBoxFromCoordinatesAndRange lat lon range)
          (sidewalk_starting_latitude row) (sidewalk_starting_longitude row)
        \/
        InBox (getBoundingBoxFromCoordinatesAndRange lat lon range)
          (sidewalk_ending_latitude row) (sidewalk_ending_longitude row))).
Proof.
  eexists. eexists. split; [|split].
  - unfold respond.
    rewrite getSidewalksInRadius_unfold, getClosestSidewalk_unfold.
    cbn [call]. unfold generateScoreWidget. reflexivity.
  - apply getClosestSidewalk_unfold.
  - intros row Hrow. apply filter_In in Hrow. destruct Hrow as [Hin Hbox].
    split; [exact Hin|]. now apply sidewalkInBox_spec.
Qed.

End ScoreRouteFacts.

(** ** The conditional theorems on the essentials and the score route, at
    the sample service and the sample store *)

Section ServiceInstances.
Import Geocoder Db Overpass EssentialsHelper HandlebarsHelper.
Import EssentialsRoute ScoreRoute DistanceToLineSegment Sample SampleService.

Lemma sample_answer (tag : string) (lat lon range : R) :
  queryOverpassForTags numberToString queryOverpass tag lat lon range
  = Some {| features := [cafe] |}.
Proof. reflexivity. Qed.

Lemma getLifestyleEssentials_grouped_witness :
  exists essentials,
    getLifestyleEssentials numberToString queryOverpass queryLat queryLng 1
      = Some essentials /\
    length essentials = 4%nat /\
    map category_general essentials =
      ["food"; "public transit"; "interest"; "comfort"]%string.
Proof.
  exact (getLifestyleEssentials_grouped numberToString queryOverpass
           queryLat queryLng 1
           {| features := [cafe] |} {| features := [cafe] |}
           {| features := [cafe] |} {| features := [cafe] |}
           (sample_answer _ _ _ _) (sample_answer _ _ _ _)
           (sample_answer _ _ _ _) (sample_answer _ _ _ _)).
Defined.

Lemma getLifestyleEssentials_coordinates_witness :
  exists essentials essential,
    getLifestyleEssentials numberToString queryOverpass queryLat queryLng 1
      = Some essentials /\
    In essential essentials /\
    name essential = Some "Cafe"%string /\
    latitude essential = Some 40.73 /\
    longitude essential = Some (-73.936).
Proof.
  refine (getLifestyleEssentials_coordinates numberToString queryOverpass
           queryLat queryLng 1
           {| features := [cafe] |} {| features := [cafe] |}
           {| features := [cafe] |} {| features := [cafe] |}
           cafe (-73.936) 40.73 []
           (sample_answer _ _ _ _) (sample_answer _ _ _ _)
           (sample_answer _ _ _ _) (sample_answer _ _ _ _) _ _).
  - left. reflexivity.
  - reflexivity.
Defined.

Lemma essentialsContext_categories_witness :
  exists essentials,
    getLifestyleEssentials numberToString queryOverpass queryLat queryLng 1.5
      = Some essentials /\
    categories (essentialsContext queryLat queryLng 1 essentials) =
      ["food"; "public transit"; "interest"; "comfort"]%string.
Proof.
  exact (essentialsContext_categories numberToString queryOverpass
           queryLat queryLng 1.5 queryLat queryLng 1
           {| features := [cafe] |} {| features := [cafe] |}
           {| features := [cafe] |} {| features := [cafe] |}
           (sample_answer _ _ _ _) (sample_answer _ _ _ _)
           (sample_answer _ _ _ _) (sample_answer _ _ _ _)).
Defined.

Lemma essentials_widget_box_within_fetched_witness :
  exists context,
    Rabs queryLat < 90 /\ 0 <= 1 /\
    widgetContext numberToString queryOverpass queryLat queryLng 1
      = Some context /\
    forall p q,
      InBox (essentials_box context) p q ->
      InBox (getBoundingBoxFromCoordinatesAndRange queryLat queryLng (1 * 1.5))
        p q.
Proof.
  assert (Hr : 0 <= 1) by lra.
  destruct (widgetContext numberToString queryOverpass queryLat queryLng 1)
    as [context|] eqn:Hctx; [|discriminate].
  exists context.
  exact (conj queryLat_in_range (conj Hr (conj eq_refl
    (proj2 (proj2 (essentials_widget_box_within_fetched
       numberToString queryOverpass queryLat queryLng 1 context
       queryLat_in_range Hr Hctx)))))).
Defined.

Lemma respond_json_scores_witness :
  walkspan <> [] /\
  exists s,
    In s walkspan /\
    In s (sidewalkCandidates walkspan queryLat queryLng) /\
    respond distance scoreTemplate walkspan bronx false queryLat queryLng 0.35
    = Respond 200 (Json
      {| json_natural_beauty_score := Some (natural_beauty_score s);
         json_manmade_beauty_score := Some (manmade_beauty_score s);
         json_comfort_score := Some (comfort_score s);
         json_interest_score := Some (interest_score s);
         json_safety_score := Some (safety_score s);
         json_access_score := Some (access_score s);
         json_amenities_score := Some (amenities_score s);
         json_latitude := queryLat;
         json_longitude := queryLng |}).
Proof.
  assert (Hne : walkspan <> []) by discriminate.
  split; [exact Hne|].
  destruct (respond_json_scores distance scoreTemplate walkspan bronx
              queryLat queryLng 0.35 Hne) as (s & Hin & Hcand & _ & Hresp).
  exists s. repeat split; assumption.
Defined.

End ServiceInstances.

(** * The bounding box under rounding *)

(** ** What binary64 does at three concrete inputs *)

Section Binary64Facts.
Import PrimFloat Binary64.
Local Open Scope float_scope.
Set Warnings "-inexact-float".




Set Warnings "+inexact-float".
End Binary64Facts.

(** ** What holds for every rounding *)

Section RoundedFacts.
Import JsNumber Geocoder Db Notions.
Variable rnd : R -> R.
Variable pi64 : R.
Variable cos64 : R -> R.

Lemma rounded_box_fields (lat lon r : R) :
  Rounded.getBoundingBoxFromCoordinatesAndRange rnd pi64 cos64 lat lon r =
  {| topLat := rnd (lat + Rounded.deltaLat rnd r);
     bottomLat := rnd (lat - Rounded.deltaLat rnd r);
     leftLng := rnd (lon - Rounded.deltaLong rnd pi64 cos64 lat r);
     rightLng := rnd (lon + Rounded.deltaLong rnd pi64 cos64 lat r) |}.
Proof. reflexivity. Qed.

Lemma Rdiv_nonneg (x y : R) : 0 <= x -> 0 <= y -> 0 <= x / y.
Proof.
  intros Hx Hy. unfold Rdiv.
  destruct (Req_dec y 0) as [-> | Hne].
  - rewrite Rinv_0. lra.
  - assert (Hinv : 0 < / y) by (apply Rinv_0_lt_compat; lra). nra.
Qed.

Lemma Rdiv_nonpos (x y : R) : x <= 0 -> 0 <= y -> x / y <= 0.
Proof.
  intros Hx Hy. pose proof (Rdiv_nonneg (- x) y) as H.
  unfold Rdiv in *. lra.
Qed.

Section Monotone.
(** Rounding keeps the order and rounds zero to zero. *)
Hypothesis rnd_monotone : forall x y, x <= y -> rnd x <= rnd y.
Hypothesis rnd_zero : rnd 0 = 0.

Lemma rnd_nonneg (x : R) : 0 <= x -> 0 <= rnd x.
Proof. intros Hx. rewrite <- rnd_zero. now apply rnd_monotone. Qed.

Lemma rnd_nonpos (x : R) : x <= 0 -> rnd x <= 0.
Proof. intros Hx. rewrite <- rnd_zero. now apply rnd_monotone. Qed.

Lemma literal_nonneg (c : R) : 0 <= c -> 0 <= rnd c.
Proof. apply rnd_nonneg. Qed.

Lemma deltaLat_nonneg (r : R) : 0 <= r -> 0 <= Rounded.deltaLat rnd r.
Proof.
  intros Hr. unfold Rounded.deltaLat.
  assert (H1 : 0 <= rnd 1609.344) by (apply literal_nonneg; lra).
  assert (H2 : 0 <= rnd 1000.0) by (apply literal_nonneg; lra).
  assert (H3 : 0 <= rnd 110.574235) by (apply literal_nonneg; lra).
  apply rnd_nonneg, Rdiv_nonneg; [|exact H3].
  apply rnd_nonneg, Rdiv_nonneg; [|exact H2].
  apply rnd_nonneg. nra.
Qed.

Lemma deltaLat_nonpos (r : R) : r <= 0 -> Rounded.deltaLat rnd r <= 0.
Proof.
  intros Hr. unfold Rounded.deltaLat.
  assert (H1 : 0 <= rnd 1609.344) by (apply literal_nonneg; lra).
  assert (H2 : 0 <= rnd 1000.0) by (apply literal_nonneg; lra).
  assert (H3 : 0 <= rnd 110.574235) by (apply literal_nonneg; lra).
  apply rnd_nonpos, Rdiv_nonpos; [|exact H3].
  apply rnd_nonpos, Rdiv_nonpos; [|exact H2].
  apply rnd_nonpos. nra.
Qed.

Lemma deltaLong_nonneg (lat r : R) :
  0 <= Rounded.degLongKm rnd pi64 cos64 lat ->
  0 <= r -> 0 <= Rounded.deltaLong rnd pi64 cos64 lat r.
Proof.
  intros Hdeg Hr. unfold Rounded.deltaLong.
  assert (H1 : 0 <= rnd 1609.344) by (apply literal_nonneg; lra).
  assert (H2 : 0 <= rnd 1000.0) by (apply literal_nonneg; lra).
  apply rnd_nonneg, Rdiv_nonneg; [|exact Hdeg].
  apply rnd_nonneg, Rdiv_nonneg; [|exact H2].
  apply rnd_nonneg. nra.
Qed.

Lemma deltaLong_nonpos (lat r : R) :
  0 <= Rounded.degLongKm rnd pi64 cos64 lat ->
  r <= 0 -> Rounded.deltaLong rnd pi64 cos64 lat r <= 0.
Proof.
  intros Hdeg Hr. unfold Rounded.deltaLong.
  assert (H1 : 0 <= rnd 1609.344) by (apply literal_nonneg; lra).
  assert (H2 : 0 <= rnd 1000.0) by (apply literal_nonneg; lra).
  apply rnd_nonpos, Rdiv_nonpos; [|exact Hdeg].
  apply rnd_nonpos, Rdiv_nonpos; [|exact H2].
  apply rnd_nonpos. nra.
Qed.

(** The computed [degLongKm] is positive at every latitude strictly
    between -90 and 90: a property of [Math.cos] and [Math.PI]. *)
Hypothesis degLongKm_positive :
  forall lat, Rabs lat < 90 -> 0 < Rounded.degLongKm rnd pi64 cos64 lat.


Lemma InBox_inverted_lng (box : BoundingBox) (p q : R) :
  rightLng box < leftLng box -> ~ InBox box p q.
Proof. unfold InBox. intros Hinv [_ [H1 H2]]. lra. Qed.


End Monotone.

Section RoundingError.
(** A number that rounds to itself stays so when negated or rounded again,
    and a sum of two such numbers is rounded with a relative error of at
    most the unit roundoff. *)
Hypothesis rnd_idempotent : forall x, rnd (rnd x) = rnd x.
Hypothesis rnd_opp : forall x, rnd (- x) = - rnd x.
Hypothesis rnd_sum_error :
  forall x y, rnd x = x -> rnd y = y ->
  Rabs (rnd (x + y) - (x + y))
  <= Rounded.unitRoundoff * Rabs (rnd (x + y)).

Lemma half_extents_close (c d : R) :
  rnd c = c ->
  rnd d = d ->
  Rabs ((rnd (c + d) - c) - (c - rnd (c - d)))
  <= Rounded.unitRoundoff * (Rabs (rnd (c + d)) + Rabs (rnd (c - d))).
Proof.
  intros Hc Hd.
  assert (Hnd : rnd (- d) = - d) by (rewrite rnd_opp, Hd; reflexivity).
  pose proof (rnd_sum_error c d Hc Hd) as H1.
  pose proof (rnd_sum_error c (- d) Hc Hnd) as H2.
  replace (c + - d) with (c - d) in H2 by ring.
  replace ((rnd (c + d) - c) - (c - rnd (c - d)))
    with ((rnd (c + d) - (c + d)) + (rnd (c - d) - (c - d))) by ring.
  eapply Rle_trans; [apply Rabs_triang|]. lra.
Qed.


End RoundingError.
End RoundedFacts.

(** ** The rounded model at the identity rounding, on the sample tables *)

Section RoundedInstances.
Import JsNumber Geocoder Db Notions Sample.

Lemma exact_degLongKm_positive (lat : R) :
  Rabs lat < 90 -> 0 < Rounded.degLongKm (fun x => x) PI cos lat.
Proof.
  intros Hlat. unfold Rounded.degLongKm, Rounded.latRadian, Number.
  pose proof (cos_latRadian_pos lat Hlat) as Hcos. nra.
Qed.




End RoundedInstances.

(** ** The empty store *)

Section EmptyStore.
Import DistanceToLineSegment Db Sample.

(** With an empty Walkspan table nothing is raised: the call completes with
    the value [undefined]. *)
Lemma getClosestSidewalk_empty_store_returns :
  sidewalkCandidates [] queryLat queryLng = [] /\
  getClosestSidewalk distance [] bronx queryLat queryLng = Return Undefined /\
  ~ (exists e : Error,
       getClosestSidewalk distance [] bronx queryLat queryLng = Throw e).
Proof.
  split; [reflexivity|]. split; [reflexivity|].
  intros [e He]. discriminate He.
Qed.

End EmptyStore.
